(** * core-js-101, src/05-objects-tasks.js: the CSS selector builder

    A shallow embedding of [SelectorBuilderClass] and of the
    [cssSelectorBuilder] facade, and of the two JSON helpers.

    Builders are JavaScript objects that are mutated in place and passed
    around by reference ([combine] renders its operands, which clears them),
    so the program state is a store of builder objects addressed by
    references.  Methods are computations in a state monad whose results are
    completions: a method either returns normally or throws, and a throw
    keeps every mutation made before it. *)

From Stdlib Require Import ZArith String Ascii List Bool Lia DecimalString.
From Stdlib Require DecimalFacts DecimalPos DecimalN DecimalZ.
From stdpp Require Import base list strings.
Import ListNotations.
Local Open Scope Z_scope.


(** ** Completions and the state monad *)

(** [new Error(message)] *)
Record Error := { message : string }.

Inductive completion (A : Type) : Type :=
| Normal (a : A)
| Throw (e : Error).
Arguments Normal {A} a.
Arguments Throw {A} e.

(** A computation over a mutable state [S]: the state that comes back is the
    state at the point of return or of the throw. *)
Definition M (S A : Type) : Type := S -> completion A * S.

Definition ret {S A} (a : A) : M S A := fun s => (Normal a, s).

Definition bind {S A B} (c : M S A) (k : A -> M S B) : M S B :=
  fun s =>
    match c s with
    | (Normal a, s') => k a s'
    | (Throw e, s') => (Throw e, s')
    end.

Definition throw {S A} (e : Error) : M S A := fun s => (Throw e, s).
Definition get {S} : M S S := fun s => (Normal s, s).
Definition modify {S} (f : S -> S) : M S unit := fun s => (Normal tt, f s).

Declare Scope js_scope.
Delimit Scope js_scope with js.
Notation "x <- c ;; k" := (bind c (fun x => k))
  (at level 100, c at next level, right associativity) : js_scope.
Notation "c ;; k" := (bind c (fun _ => k))
  (at level 100, right associativity) : js_scope.

(** ** The Array.prototype methods the builder uses *)

Module Array.

(** [arr.every((x, index) => f x index)].  The callbacks of this program
    have no effects, so the early exit of [every] is not observable. *)
Fixpoint every_from {A} (f : A -> Z -> bool) (index : Z) (arr : list A) : bool :=
  match arr with
  | [] => true
  | x :: arr' => f x index && every_from f (index + 1) arr'
  end.

Definition every {A} (f : A -> Z -> bool) (arr : list A) : bool :=
  every_from f 0 arr.

(** [arr.indexOf(x)]: position of the first element strictly equal to [x],
    [-1] when there is none. *)
Fixpoint indexOf_from (arr : list string) (x : string) (index : Z) : Z :=
  match arr with
  | [] => -1
  | y :: arr' => if String.eqb y x then index else indexOf_from arr' x (index + 1)
  end.

Definition indexOf (arr : list string) (x : string) : Z := indexOf_from arr x 0.

(** [arr.includes(x)] *)
Definition includes (arr : list string) (x : string) : bool :=
  existsb (fun y => String.eqb y x) arr.

(** A relative index of [slice]: negative counts from the end, and the
    result is clamped to [0 .. len]. *)
Definition relative (len i : Z) : Z :=
  if i <? 0 then Z.max (len + i) 0 else Z.min i len.

(** [arr.slice(start, end)]; [end_ = None] is [arr.slice(start)]. *)
Definition slice {A} (arr : list A) (start : Z) (end_ : option Z) : list A :=
  let len := Z.of_nat (length arr) in
  let k := relative len start in
  let final := match end_ with None => len | Some e => relative len e end in
  firstn (Z.to_nat (final - k)) (skipn (Z.to_nat k) arr).

(** What [join] prints for an element: [null] prints as the empty string. *)
Class Joinable (A : Type) := to_joined : A -> string.
#[global] Instance Joinable_string : Joinable string := fun s => s.
#[global] Instance Joinable_nullable : Joinable (option string) :=
  fun v => match v with Some s => s | None => "" end.

(** [arr.join('')] *)
Definition join {A} `{Joinable A} (arr : list A) : string :=
  fold_right (fun x acc => to_joined x +:+ acc) "" arr.

(** [arr.push(x)] *)
Definition push {A} (arr : list A) (x : A) : list A := arr ++ [x].

End Array.

(** ** SelectorBuilderClass *)

(** [{ type, value }], the entries of [this.selectors] *)
Record Selector := { type : string; value : string }.

Module Flags.
(** [this.flags] *)
Record t := mk { element : bool; id : bool; pseudoElement : bool }.
End Flags.

(** The two errors of the builder.  Both are plain [Error] objects, told
    apart by their message. *)
Definition DuplicateSelectorPartError : Error :=
  {| message := "Element, id and pseudo-element should not occur more then one time inside the selector" |}.

Definition SelectorOrderError : Error :=
  {| message := "Selector parts should be arranged in the following order: element, id, class, attribute, pseudo-class, pseudo-element" |}.

Module SelectorBuilderClass.

(** The fields of an instance.  A [null] in [combineSelectors] is [None]:
    [combine] pushes whatever [stringify] returned. *)
Record t := mk {
  selectors : list Selector;
  combineSelectors : list (option string);
  flags : Flags.t;
  order : list string
}.

Definition set_selectors (v : list Selector) (this : t) : t :=
  mk v (combineSelectors this) (flags this) (order this).
Definition set_combineSelectors (v : list (option string)) (this : t) : t :=
  mk (selectors this) v (flags this) (order this).
Definition set_flags (v : Flags.t) (this : t) : t :=
  mk (selectors this) (combineSelectors this) v (order this).

Definition constructor : t :=
  {| selectors := [];
     combineSelectors := [];
     flags := {| Flags.element := false; Flags.id := false; Flags.pseudoElement := false |};
     order := ["element"; "id"; "class"; "attribute"; "pseudoClass"; "pseudoElement"] |}.

(** The value computed into [isValidOrder] by [checkOrder]. *)
Definition isValidOrder (this : t) : bool :=
  Array.every (fun selector index =>
    let indexInOrder := Array.indexOf (order this) (type selector) in
    let selectors := Array.slice (selectors this) 0 (Some index) in
    Array.every (fun elem _ =>
      let result := negb (Array.includes (Array.slice (order this) (indexInOrder + 1) None) (type elem)) in
      result) selectors) (selectors this).

Definition checkOrder : M t bool :=
  (this <- get ;;
   if negb (isValidOrder this) then throw SelectorOrderError
   else ret true)%js.

(** [this.selectors.push(part)] *)
Definition push_selector (part : Selector) : M t unit :=
  modify (fun this => set_selectors (Array.push (selectors this) part) this).

(** The methods return [this]; here the receiver is the state of the
    monad, and a normal return carries [tt].  The argument is the string
    that the template literal makes of [value]. *)
Definition element (value : string) : M t unit :=
  (this <- get ;;
   if Flags.element (flags this) then throw DuplicateSelectorPartError
   else
     modify (fun this => set_flags (Flags.mk true (Flags.id (flags this)) (Flags.pseudoElement (flags this))) this) ;;
     push_selector {| type := "element"; value := value |} ;;
     checkOrder ;;
     ret tt)%js.

Definition id (value : string) : M t unit :=
  (this <- get ;;
   if Flags.id (flags this) then throw DuplicateSelectorPartError
   else
     modify (fun this => set_flags (Flags.mk (Flags.element (flags this)) true (Flags.pseudoElement (flags this))) this) ;;
     push_selector {| type := "id"; value := "#" +:+ value |} ;;
     checkOrder ;;
     ret tt)%js.

Definition class (value : string) : M t unit :=
  (push_selector {| type := "class"; value := "." +:+ value |} ;;
   checkOrder ;;
   ret tt)%js.

Definition attr (value : string) : M t unit :=
  (push_selector {| type := "attribute"; value := "[" +:+ value +:+ "]" |} ;;
   checkOrder ;;
   ret tt)%js.

Definition pseudoClass (value : string) : M t unit :=
  (push_selector {| type := "pseudoClass"; value := ":" +:+ value |} ;;
   checkOrder ;;
   ret tt)%js.

Definition pseudoElement (value : string) : M t unit :=
  (this <- get ;;
   if Flags.pseudoElement (flags this) then throw DuplicateSelectorPartError
   else
     modify (fun this => set_flags (Flags.mk (Flags.element (flags this)) (Flags.id (flags this)) true) this) ;;
     push_selector {| type := "pseudoElement"; value := "::" +:+ value |} ;;
     ret tt)%js.

(** [null] is [None]. *)
Definition stringify : M t (option string) :=
  (this <- get ;;
   let selector :=
     if negb (Z.of_nat (length (selectors this)) =? 0) then
       Some (Array.join (map (fun item => value item) (selectors this)))
     else if negb (Z.of_nat (length (combineSelectors this)) =? 0) then
       Some (Array.join (combineSelectors this))
     else None in
   modify (set_selectors []) ;;
   modify (set_combineSelectors []) ;;
   ret selector)%js.

(** *** Instances in the store

    A reference is the position of the object in the store; [new]
    allocates at the end and nothing is ever freed. *)
Abbreviation ref := nat.
Abbreviation heap := (list t).

(** What calling a method on something that is not an object throws.  The
    program never does so: every reference it holds comes from [new]. *)
Definition TypeError : Error :=
  {| message := "Cannot read properties of undefined" |}.

(** [new SelectorBuilderClass()] *)
Definition new : M heap ref :=
  fun h => (Normal (length h), h ++ [constructor]).

(** [this.method(...)] for a method that only touches the fields of its
    receiver: run it on the object [this] refers to and write the object
    back, also when the method throws. *)
Definition invoke {A} (this : ref) (method : M t A) : M heap A :=
  fun h =>
    match h !! this with
    | Some obj => let (c, obj') := method obj in (c, <[this := obj']> h)
    | None => (Throw TypeError, h)
    end.

(** [this.combineSelectors.push(v)] once [v] is known *)
Definition push_combineSelectors (v : option string) : M t unit :=
  modify (fun this => set_combineSelectors (Array.push (combineSelectors this) v) this).

(** [this.combineSelectors.push(selector.stringify())].

    JavaScript evaluates the receiver [this.combineSelectors] (the array
    object) before the argument.  [stringify] always re-assigns
    [combineSelectors] of its own receiver to a new empty array, and no
    other statement re-assigns it.  So when [selector] is [this] itself the
    push lands in the array that [stringify] has just detached, which
    nothing refers to any more, and [this.combineSelectors] stays the new
    empty array; for any other [selector] the array is still the one held
    by [this] and the push is seen. *)
Definition push_stringified (this selector : ref) : M heap unit :=
  (_ <- invoke this get ;;
   s <- invoke selector stringify ;;
   if decide (selector = this) then ret tt
   else invoke this (push_combineSelectors s))%js.

Definition combine (this selector1 : ref) (combinator : string) (selector2 : ref) : M heap ref :=
  (push_stringified this selector1 ;;
   invoke this (push_combineSelectors (Some (" " +:+ combinator +:+ " "))) ;;
   push_stringified this selector2 ;;
   ret this)%js.

End SelectorBuilderClass.

(** ** The facade *)

Module cssSelectorBuilder.
Import SelectorBuilderClass.

Definition element (value : string) : M heap ref :=
  (this <- new ;; invoke this (SelectorBuilderClass.element value) ;; ret this)%js.

Definition id (value : string) : M heap ref :=
  (this <- new ;; invoke this (SelectorBuilderClass.id value) ;; ret this)%js.

Definition class (value : string) : M heap ref :=
  (this <- new ;; invoke this (SelectorBuilderClass.class value) ;; ret this)%js.

Definition attr (value : string) : M heap ref :=
  (this <- new ;; invoke this (SelectorBuilderClass.attr value) ;; ret this)%js.

Definition pseudoClass (value : string) : M heap ref :=
  (this <- new ;; invoke this (SelectorBuilderClass.pseudoClass value) ;; ret this)%js.

Definition pseudoElement (value : string) : M heap ref :=
  (this <- new ;; invoke this (SelectorBuilderClass.pseudoElement value) ;; ret this)%js.

Definition combine (selector1 : ref) (combinator : string) (selector2 : ref) : M heap ref :=
  (this <- new ;; SelectorBuilderClass.combine this selector1 combinator selector2)%js.

End cssSelectorBuilder.

(** The nested example of the documentation comment, on the empty store. *)
Definition documented_example : M (list SelectorBuilderClass.t) (option string) :=
  (a <- cssSelectorBuilder.element "div" ;;
   SelectorBuilderClass.invoke a (SelectorBuilderClass.id "main") ;;
   SelectorBuilderClass.invoke a (SelectorBuilderClass.class "container") ;;
   SelectorBuilderClass.invoke a (SelectorBuilderClass.class "draggable") ;;
   b <- cssSelectorBuilder.element "table" ;;
   SelectorBuilderClass.invoke b (SelectorBuilderClass.id "data") ;;
   c <- cssSelectorBuilder.element "tr" ;;
   SelectorBuilderClass.invoke c (SelectorBuilderClass.pseudoClass "nth-of-type(even)") ;;
   d <- cssSelectorBuilder.element "td" ;;
   SelectorBuilderClass.invoke d (SelectorBuilderClass.pseudoClass "nth-of-type(even)") ;;
   cd <- cssSelectorBuilder.combine c " " d ;;
   bcd <- cssSelectorBuilder.combine b "~" cd ;;
   abcd <- cssSelectorBuilder.combine a "+" bcd ;;
   SelectorBuilderClass.invoke abcd SelectorBuilderClass.stringify)%js.

(** ** Calls, chains and scripts *)

Module Category.
(** The six categories of selector parts, in their fixed order. *)
Inductive t := element | id | class | attribute | pseudoClass | pseudoElement.

#[global] Instance eq_dec : EqDecision t.
Proof. solve_decision. Defined.

Definition index (c : t) : Z :=
  match c with
  | element => 0 | id => 1 | class => 2
  | attribute => 3 | pseudoClass => 4 | pseudoElement => 5
  end.

(** The tag the methods write into the [type] field of a part. *)
Definition name (c : t) : string :=
  match c with
  | element => "element" | id => "id" | class => "class"
  | attribute => "attribute" | pseudoClass => "pseudoClass"
  | pseudoElement => "pseudoElement"
  end.

End Category.

(** A category call: which of the six methods, and its argument. *)
Definition call : Type := Category.t * string.

(** The method of [SelectorBuilderClass] a call runs. *)
Definition method (c : call) : M SelectorBuilderClass.t unit :=
  match c with
  | (Category.element, v) => SelectorBuilderClass.element v
  | (Category.id, v) => SelectorBuilderClass.id v
  | (Category.class, v) => SelectorBuilderClass.class v
  | (Category.attribute, v) => SelectorBuilderClass.attr v
  | (Category.pseudoClass, v) => SelectorBuilderClass.pseudoClass v
  | (Category.pseudoElement, v) => SelectorBuilderClass.pseudoElement v
  end.

(** The entry of [cssSelectorBuilder] a call runs when it starts a chain. *)
Definition facade (c : call) : M (list SelectorBuilderClass.t) SelectorBuilderClass.ref :=
  match c with
  | (Category.element, v) => cssSelectorBuilder.element v
  | (Category.id, v) => cssSelectorBuilder.id v
  | (Category.class, v) => cssSelectorBuilder.class v
  | (Category.attribute, v) => cssSelectorBuilder.attr v
  | (Category.pseudoClass, v) => cssSelectorBuilder.pseudoClass v
  | (Category.pseudoElement, v) => cssSelectorBuilder.pseudoElement v
  end.

(** [this.m1(v1).m2(v2)...]: each call is made on what the previous one
    returned, which is [this]; a throw ends the chain. *)
Fixpoint chained (this : SelectorBuilderClass.ref) (cs : list call)
  : M (list SelectorBuilderClass.t) unit :=
  match cs with
  | [] => ret tt
  | c :: cs' => (SelectorBuilderClass.invoke this (method c) ;; chained this cs')%js
  end.

(** [cssSelectorBuilder.m0(v0).m1(v1)...stringify()] *)
Definition chain (c : call) (cs : list call) : M (list SelectorBuilderClass.t) (option string) :=
  (this <- facade c ;;
   chained this cs ;;
   SelectorBuilderClass.invoke this SelectorBuilderClass.stringify)%js.

(** What a caller can do with the builders of a store, one statement at a
    time.  The caller catches what a statement throws and goes on, so a
    script only records the store each statement leaves. *)
Inductive action :=
| Invoke (this : SelectorBuilderClass.ref) (c : call)
| Stringify (this : SelectorBuilderClass.ref)
| Combine (this selector1 : SelectorBuilderClass.ref) (combinator : string)
    (selector2 : SelectorBuilderClass.ref)
| Facade (c : call)
| FacadeCombine (selector1 : SelectorBuilderClass.ref) (combinator : string)
    (selector2 : SelectorBuilderClass.ref).

Definition perform (a : action) (h : list SelectorBuilderClass.t) : list SelectorBuilderClass.t :=
  match a with
  | Invoke this c => snd (SelectorBuilderClass.invoke this (method c) h)
  | Stringify this => snd (SelectorBuilderClass.invoke this SelectorBuilderClass.stringify h)
  | Combine this s1 c s2 => snd (SelectorBuilderClass.combine this s1 c s2 h)
  | Facade c => snd (facade c h)
  | FacadeCombine s1 c s2 => snd (cssSelectorBuilder.combine s1 c s2 h)
  end.

Definition run (script : list action) (h : list SelectorBuilderClass.t) : list SelectorBuilderClass.t :=
  fold_left (fun h a => perform a h) script h.

(** ** The vocabulary of the specification *)

(** The fragment a category call contributes to the rendered selector. *)
Definition fragment (c : call) : string :=
  match c with
  | (Category.element, v) => v
  | (Category.id, v) => "#" +:+ v
  | (Category.class, v) => "." +:+ v
  | (Category.attribute, v) => "[" +:+ v +:+ "]"
  | (Category.pseudoClass, v) => ":" +:+ v
  | (Category.pseudoElement, v) => "::" +:+ v
  end.

(** The part a category call appends. *)
Definition part (c : call) : Selector :=
  {| type := Category.name (fst c); value := fragment c |}.

Definition concat_fragments (cs : list call) : string :=
  fold_right (fun c acc => fragment c +:+ acc) EmptyString cs.

(** A valid ordering of category calls: the categories do not go down in the
    fixed order, and element, id and pseudoElement occur at most once. *)
Fixpoint nondecreasing (l : list Z) : bool :=
  match l with
  | a :: (b :: _) as l' => (a <=? b) && nondecreasing l'
  | _ => true
  end.

Definition occurrences (k : Category.t) (cs : list call) : nat :=
  length (filter (fun c => fst c = k) cs).

Definition valid_ordering (cs : list call) : bool :=
  nondecreasing (map (fun c => Category.index (fst c)) cs)
  && (occurrences Category.element cs <=? 1)%nat
  && (occurrences Category.id cs <=? 1)%nat
  && (occurrences Category.pseudoElement cs <=? 1)%nat.

(** The same orderings, written as the pattern
    [element? id? class* attribute* pseudoClass* pseudoElement?]. *)
Definition once (k : Category.t) (v : option string) : list call :=
  match v with Some v => [(k, v)] | None => [] end.

Definition pattern (e i : option string) (cls ats pcs : list string) (pe : option string)
  : list call :=
  once Category.element e ++ once Category.id i
  ++ map (pair Category.class) cls ++ map (pair Category.attribute) ats
  ++ map (pair Category.pseudoClass) pcs ++ once Category.pseudoElement pe.

(** The index of a part's category in the fixed enumeration
    (element, id, class, attribute, pseudoClass, pseudoElement); [-1] for a
    tag that is none of them, which no method ever writes. *)
Definition category_index (type : string) : Z :=
  if String.eqb type "element" then 0
  else if String.eqb type "id" then 1
  else if String.eqb type "class" then 2
  else if String.eqb type "attribute" then 3
  else if String.eqb type "pseudoClass" then 4
  else if String.eqb type "pseudoElement" then 5
  else -1.

(** There is a pair (earlier, later) in insertion order whose categories are
    inverted. *)
Definition inverted (parts : list Selector) : Prop :=
  exists (i j : nat) (earlier later : Selector),
    (i < j)%nat /\ parts !! i = Some earlier /\ parts !! j = Some later
    /\ category_index (type earlier) > category_index (type later).

(** The singleton flag that guards a category, [false] for the repeatable
    categories. *)
Definition already_added (k : Category.t) (this : SelectorBuilderClass.t) : bool :=
  match k with
  | Category.element => Flags.element (SelectorBuilderClass.flags this)
  | Category.id => Flags.id (SelectorBuilderClass.flags this)
  | Category.pseudoElement => Flags.pseudoElement (SelectorBuilderClass.flags this)
  | _ => false
  end.

(** An instance as the constructor leaves its [order] field; no method
    assigns it. *)
Definition constructed (this : SelectorBuilderClass.t) : Prop :=
  SelectorBuilderClass.order this
  = SelectorBuilderClass.order SelectorBuilderClass.constructor.

(** The state a category call leaves when it gets past its guard: the
    singleton flag of its category is set and its part is pushed. *)
Definition raise_flag (k : Category.t) (f : Flags.t) : Flags.t :=
  match k with
  | Category.element => Flags.mk true (Flags.id f) (Flags.pseudoElement f)
  | Category.id => Flags.mk (Flags.element f) true (Flags.pseudoElement f)
  | Category.pseudoElement => Flags.mk (Flags.element f) (Flags.id f) true
  | _ => f
  end.

Definition appended (c : call) (this : SelectorBuilderClass.t) : SelectorBuilderClass.t :=
  SelectorBuilderClass.mk
    (SelectorBuilderClass.selectors this ++ [part c])
    (SelectorBuilderClass.combineSelectors this)
    (raise_flag (fst c) (SelectorBuilderClass.flags this))
    (SelectorBuilderClass.order this).

(** A run of category calls on one receiver, as a method chain runs them. *)
Fixpoint methods (cs : list call) : M SelectorBuilderClass.t unit :=
  match cs with
  | [] => ret tt
  | c :: cs' => (method c ;; methods cs')%js
  end.

Definition appended_all (cs : list call) (this : SelectorBuilderClass.t) : SelectorBuilderClass.t :=
  fold_left (fun this c => appended c this) cs this.

(** The claim that a category call throws the order error exactly when the
    parts it leaves have an inverted pair. *)
Definition order_error_iff_inverted (c : call) (this : SelectorBuilderClass.t) : Prop :=
  fst (method c this) = Throw SelectorOrderError
  <-> inverted (SelectorBuilderClass.selectors (snd (method c this))).

(** A builder on which [class] and then [element] were called, the second
    call throwing the order error to a caller that caught it. *)
Definition class_then_element : SelectorBuilderClass.t :=
  snd ((SelectorBuilderClass.class "a" ;; SelectorBuilderClass.element "div")%js
         SelectorBuilderClass.constructor).

(** The categories guarded by a singleton flag. *)
Definition singleton (k : Category.t) : bool :=
  match k with
  | Category.element | Category.id | Category.pseudoElement => true
  | _ => false
  end.

(** A singleton flag that is set stays set: the relation between an object
    and a later state of it, and between a store and a later store. *)
Definition keeps_flags (obj obj' : SelectorBuilderClass.t) : Prop :=
  forall k, already_added k obj = true -> already_added k obj' = true.

Definition later_store (h h' : list SelectorBuilderClass.t) : Prop :=
  forall (r : SelectorBuilderClass.ref) (obj : SelectorBuilderClass.t),
    h !! r = Some obj -> exists obj', h' !! r = Some obj' /\ keeps_flags obj obj'.

Definition flag_monotone {A} (m : M SelectorBuilderClass.t A) : Prop :=
  forall obj, keeps_flags obj (snd (m obj)).

Definition store_monotone {A} (m : M (list SelectorBuilderClass.t) A) : Prop :=
  forall h, later_store h (snd (m h)).

(** What [stringify] returns on an object and what it leaves of it. *)
Definition rendered (this : SelectorBuilderClass.t) : option string :=
  fst (match SelectorBuilderClass.stringify this with
       | (Normal s, this') => (s, this')
       | (Throw _, this') => (None, this')
       end).

Definition cleared (this : SelectorBuilderClass.t) : SelectorBuilderClass.t :=
  snd (SelectorBuilderClass.stringify this).

(** The entry [combine] pushes between the two rendered operands. *)
Definition padded (combinator : string) : string := " " +:+ combinator +:+ " ".

(** A builder of the store that has been rendered: both of its sequences are
    empty and [stringify] on it returns [null]. *)
Definition consumed (r : SelectorBuilderClass.ref) (h : list SelectorBuilderClass.t) : Prop :=
  (exists obj, h !! r = Some obj
               /\ SelectorBuilderClass.selectors obj = []
               /\ SelectorBuilderClass.combineSelectors obj = [])
  /\ fst (SelectorBuilderClass.invoke r SelectorBuilderClass.stringify h) = Normal None.

(** A store with two builders, [element('div')] at 0 and [element('table')]
    at 1. *)
Definition div_and_table : list SelectorBuilderClass.t :=
  snd ((cssSelectorBuilder.element "div" ;; cssSelectorBuilder.element "table")%js []).

(** A builder on which [attr] and then [class] were called, the second call
    throwing the order error to a caller that caught it; no singleton flag
    is set. *)
Definition attr_then_class : SelectorBuilderClass.t :=
  snd ((SelectorBuilderClass.attr "x" ;; SelectorBuilderClass.class "a")%js
         SelectorBuilderClass.constructor).

(** A store with three builders: [element('div')], [element('table')] and
    [class('x')]. *)
Definition three_builders : list SelectorBuilderClass.t :=
  snd ((cssSelectorBuilder.element "div" ;; cssSelectorBuilder.element "table" ;;
        cssSelectorBuilder.class "x")%js []).

(** ** The JSON helpers *)

(** [JSON.stringify] and [JSON.parse] belong to the platform.  They are
    modelled here on a fragment of JSON: numbers are the integers a double
    holds exactly, strings are ASCII, and the members of an object are its
    own enumerable properties in enumeration order, with distinct keys none
    of which is integer-like.  Text outside the fragment is reported as
    such, not given a meaning. *)
Module JSON.

(** The values of the fragment. *)
#[warnings="-register-all"] Inductive value :=
| Null
| Bool (b : bool)
| Number (n : Z)
| Str (s : string)
| Arr (items : list value)
| Obj (members : list (string * value)).

(** *** Serializing *)

Definition dquote : ascii := "034"%char.
Definition backslash : ascii := "092"%char.

Definition hex_digit (n : N) : ascii :=
  ascii_of_N (if (n <? 10)%N then 48 + n else 87 + n).

(** What [JSON.stringify] writes for one character of a string. *)
Definition escape (a : ascii) : string :=
  let n := N_of_ascii a in
  if (n =? 34)%N then String backslash (String dquote EmptyString)
  else if (n =? 92)%N then String backslash (String backslash EmptyString)
  else if (n =? 8)%N then String backslash "b"
  else if (n =? 12)%N then String backslash "f"
  else if (n =? 10)%N then String backslash "n"
  else if (n =? 13)%N then String backslash "r"
  else if (n =? 9)%N then String backslash "t"
  else if (n <? 32)%N then
    String backslash ("u00" +:+ String (hex_digit (n / 16)) (String (hex_digit (n mod 16)) EmptyString))
  else String a EmptyString.

Fixpoint quote_body (s : string) : string :=
  match s with
  | EmptyString => EmptyString
  | String a s' => escape a +:+ quote_body s'
  end.

Definition quote (s : string) : string :=
  String dquote (quote_body s +:+ String dquote EmptyString).

Fixpoint commas (l : list string) : string :=
  match l with
  | [] => EmptyString
  | [s] => s
  | s :: l' => s +:+ "," +:+ commas l'
  end.

(** [JSON.stringify(v)] *)
Fixpoint stringify (v : value) : string :=
  match v with
  | Null => "null"
  | Bool b => if b then "true" else "false"
  | Number n => NilZero.string_of_int (Z.to_int n)
  | Str s => quote s
  | Arr items => "[" +:+ commas (map stringify items) +:+ "]"
  | Obj members =>
      "{" +:+ commas (map (fun m => quote (fst m) +:+ ":" +:+ stringify (snd m)) members) +:+ "}"
  end.


(** *** Parsing *)

(** What a parsing function makes of a prefix of the text: a result and the
    rest of the text, a syntax error, or text outside the fragment that is
    modelled. *)
Inductive outcome (A : Type) : Type :=
| Parsed (a : A) (rest : list ascii)
| Failed
| Unmodelled.
Arguments Parsed {A} a rest.
Arguments Failed {A}.
Arguments Unmodelled {A}.

Definition is_ws (a : ascii) : bool :=
  let n := N_of_ascii a in
  ((n =? 32) || (n =? 9) || (n =? 10) || (n =? 13))%N.

Definition is_digit (a : ascii) : bool :=
  let n := N_of_ascii a in ((48 <=? n) && (n <=? 57))%N.

Fixpoint skip_ws (l : list ascii) : list ascii :=
  match l with
  | a :: l' => if is_ws a then skip_ws l' else l
  | [] => []
  end.

(** [expect lit l]: the text after the literal, when [l] starts with it. *)
Fixpoint expect (lit : list ascii) (l : list ascii) : option (list ascii) :=
  match lit, l with
  | [], _ => Some l
  | a :: lit', b :: l' => if Ascii.eqb a b then expect lit' l' else None
  | _ :: _, [] => None
  end.

Definition hex_value (a : ascii) : option N :=
  let n := N_of_ascii a in
  if ((48 <=? n) && (n <=? 57))%N then Some (n - 48)%N
  else if ((97 <=? n) && (n <=? 102))%N then Some (n - 87)%N
  else if ((65 <=? n) && (n <=? 70))%N then Some (n - 55)%N
  else None.

(** The characters of a string after its opening quote, up to the closing
    one; [acc] holds what was read, last character first. *)
Fixpoint parse_string (l : list ascii) (acc : list ascii) : outcome string :=
  match l with
  | [] => Failed
  | a :: l' =>
      if Ascii.eqb a dquote then Parsed (string_of_list_ascii (rev acc)) l'
      else if Ascii.eqb a backslash then
        match l' with
        | [] => Failed
        | e :: l'' =>
            if Ascii.eqb e dquote then parse_string l'' (dquote :: acc)
            else if Ascii.eqb e backslash then parse_string l'' (backslash :: acc)
            else if Ascii.eqb e "/" then parse_string l'' ("/"%char :: acc)
            else if Ascii.eqb e "b" then parse_string l'' ("008"%char :: acc)
            else if Ascii.eqb e "f" then parse_string l'' ("012"%char :: acc)
            else if Ascii.eqb e "n" then parse_string l'' ("010"%char :: acc)
            else if Ascii.eqb e "r" then parse_string l'' ("013"%char :: acc)
            else if Ascii.eqb e "t" then parse_string l'' ("009"%char :: acc)
            else if Ascii.eqb e "u" then
              match l'' with
              | h1 :: h2 :: h3 :: h4 :: l5 =>
                  match hex_value h1, hex_value h2, hex_value h3, hex_value h4 with
                  | Some d1, Some d2, Some d3, Some d4 =>
                      let code := (((d1 * 16 + d2) * 16 + d3) * 16 + d4)%N in
                      if (code <? 128)%N then parse_string l5 (ascii_of_N code :: acc)
                      else Unmodelled
                  | _, _, _, _ => Failed
                  end
              | _ => Failed
              end
            else Failed
        end
      else if (N_of_ascii a <? 32)%N then Failed
      else if (N_of_ascii a <? 128)%N then parse_string l' (a :: acc)
      else Unmodelled
  end.

Fixpoint take_digits (l : list ascii) : list ascii * list ascii :=
  match l with
  | a :: l' =>
      if is_digit a then let (ds, rest) := take_digits l' in (a :: ds, rest)
      else ([], l)
  | [] => ([], [])
  end.

(** An integer literal.  A fraction or an exponent, minus zero, and an
    integer that a double does not hold exactly are outside the model. *)
Definition parse_number (l : list ascii) : outcome value :=
  let (negative, l1) :=
    match l with
    | a :: l' => if Ascii.eqb a "-" then (true, l') else (false, l)
    | [] => (false, l)
    end in
  let (ds, rest) := take_digits l1 in
  match ds with
  | [] => Failed
  | d :: ds' =>
      if Ascii.eqb d "0" && negb (Nat.eqb (length ds') 0) then Failed
      else
        match rest with
        | a :: _ =>
            if Ascii.eqb a "." || Ascii.eqb a "e" || Ascii.eqb a "E" then Unmodelled
            else
              match NilZero.uint_of_string (string_of_list_ascii ds) with
              | Some u =>
                  let n := Z.of_uint u in
                  if negative && (n =? 0) then Unmodelled
                  else if 2 ^ 53 <=? n then Unmodelled
                  else Parsed (Number (if negative then - n else n)) rest
              | None => Failed
              end
        | [] =>
            match NilZero.uint_of_string (string_of_list_ascii ds) with
            | Some u =>
                let n := Z.of_uint u in
                if negative && (n =? 0) then Unmodelled
                else if 2 ^ 53 <=? n then Unmodelled
                else Parsed (Number (if negative then - n else n)) rest
            | None => Failed
            end
        end
  end.

(** A key that would not keep its place in the enumeration order of the
    object that is built: an integer-like key, or a key already there. *)
Definition displaced (key : string) (members : list (string * value)) : bool :=
  match key with
  | String a _ => is_digit a
  | EmptyString => false
  end
  || existsb (fun m => String.eqb (fst m) key) members.

Fixpoint parse_value (fuel : nat) (l : list ascii) {struct fuel} : outcome value :=
  match fuel with
  | O => Unmodelled
  | S fuel' =>
      match skip_ws l with
      | [] => Failed
      | a :: rest =>
          if Ascii.eqb a "n" then
            match expect (list_ascii_of_string "ull") rest with
            | Some rest' => Parsed Null rest'
            | None => Failed
            end
          else if Ascii.eqb a "t" then
            match expect (list_ascii_of_string "rue") rest with
            | Some rest' => Parsed (Bool true) rest'
            | None => Failed
            end
          else if Ascii.eqb a "f" then
            match expect (list_ascii_of_string "alse") rest with
            | Some rest' => Parsed (Bool false) rest'
            | None => Failed
            end
          else if Ascii.eqb a dquote then
            match parse_string rest [] with
            | Parsed s rest' => Parsed (Str s) rest'
            | Failed => Failed
            | Unmodelled => Unmodelled
            end
          else if Ascii.eqb a "[" then
            match skip_ws rest with
            | b :: rest' =>
                if Ascii.eqb b "]" then Parsed (Arr []) rest'
                else parse_elements fuel' rest []
            | [] => Failed
            end
          else if Ascii.eqb a "{" then
            match skip_ws rest with
            | b :: rest' =>
                if Ascii.eqb b "}" then Parsed (Obj []) rest'
                else parse_members fuel' rest []
            | [] => Failed
            end
          else if Ascii.eqb a "-" || is_digit a then parse_number (a :: rest)
          else Failed
      end
  end

with parse_elements (fuel : nat) (l : list ascii) (acc : list value) {struct fuel}
  : outcome value :=
  match fuel with
  | O => Unmodelled
  | S fuel' =>
      match parse_value fuel' l with
      | Parsed v rest =>
          match skip_ws rest with
          | b :: rest' =>
              if Ascii.eqb b "," then parse_elements fuel' rest' (v :: acc)
              else if Ascii.eqb b "]" then Parsed (Arr (rev (v :: acc))) rest'
              else Failed
          | [] => Failed
          end
      | Failed => Failed
      | Unmodelled => Unmodelled
      end
  end

with parse_members (fuel : nat) (l : list ascii) (acc : list (string * value)) {struct fuel}
  : outcome value :=
  match fuel with
  | O => Unmodelled
  | S fuel' =>
      match skip_ws l with
      | q :: l1 =>
          if Ascii.eqb q dquote then
            match parse_string l1 [] with
            | Parsed key l2 =>
                match skip_ws l2 with
                | c :: l3 =>
                    if Ascii.eqb c ":" then
                      match parse_value fuel' l3 with
                      | Parsed v rest =>
                          if displaced key acc then Unmodelled
                          else
                            match skip_ws rest with
                            | b :: rest' =>
                                if Ascii.eqb b "," then parse_members fuel' rest' ((key, v) :: acc)
                                else if Ascii.eqb b "}" then Parsed (Obj (rev ((key, v) :: acc))) rest'
                                else Failed
                            | [] => Failed
                            end
                      | Failed => Failed
                      | Unmodelled => Unmodelled
                      end
                    else Failed
                | [] => Failed
                end
            | Failed => Failed
            | Unmodelled => Unmodelled
            end
          else Failed
      | [] => Failed
      end
  end.

Definition SyntaxError : Error := {| message := "Unexpected token in JSON" |}.

(** [JSON.parse(text)]; [None] when the text is outside the model. *)
Definition parse (text : string) : option (completion value) :=
  let l := list_ascii_of_string text in
  match parse_value (2 * length l + 2) l with
  | Parsed v rest =>
      match skip_ws rest with
      | [] => Some (Normal v)
      | _ :: _ => Some (Throw SyntaxError)
      end
  | Failed => Some (Throw SyntaxError)
  | Unmodelled => None
  end.

End JSON.

(** A method of a prototype, as a function of the own data properties of
    the object it is called on. *)
Definition Method : Type := list (string * JSON.value) -> completion JSON.value.

(** A prototype object: its methods by name. *)
Definition Prototype : Type := list (string * Method).

(** A value with the prototype that was set on it; [None] is the built-in
    prototype of its type. *)
Record Instance := { data : JSON.value; prototypeOf : option Prototype }.

Definition TypeError_setPrototypeOf : Error :=
  {| message := "Object.setPrototypeOf called on null or undefined" |}.

Definition TypeError_not_a_function : Error :=
  {| message := "is not a function" |}.

(** [Object.setPrototypeOf(obj, proto)] for a prototype object [proto]: it
    throws on [null], leaves a primitive as it is, and sets the prototype of
    an object or an array. *)
Definition Object_setPrototypeOf (obj : JSON.value) (proto : Prototype) : completion Instance :=
  match obj with
  | JSON.Null => Throw TypeError_setPrototypeOf
  | JSON.Obj _ | JSON.Arr _ => Normal {| data := obj; prototypeOf := Some proto |}
  | _ => Normal {| data := obj; prototypeOf := None |}
  end.

Definition getJSON (obj : JSON.value) : string := JSON.stringify obj.

(** [None] when [json] is outside the modelled fragment. *)
Definition fromJSON (proto : Prototype) (json : string) : option (completion Instance) :=
  match JSON.parse json with
  | None => None
  | Some (Throw e) => Some (Throw e)
  | Some (Normal obj) => Some (Object_setPrototypeOf obj proto)
  end.

Fixpoint assoc {A} (name : string) (l : list (string * A)) : option A :=
  match l with
  | [] => None
  | (k, a) :: l' => if String.eqb k name then Some a else assoc name l'
  end.

(** [obj.name()] on an object whose prototype was set: an own property
    hides the prototype and, being data, is not callable; otherwise the
    method of the prototype runs on the object.  [None] when the lookup
    goes past the prototype that was set, which is not modelled. *)
Definition call_method (obj : Instance) (name : string) : option (completion JSON.value) :=
  match data obj, prototypeOf obj with
  | JSON.Obj members, Some proto =>
      match assoc name members with
      | Some _ => Some (Throw TypeError_not_a_function)
      | None =>
          match assoc name proto with
          | Some m => Some (m members)
          | None => None
          end
      end
  | _, _ => None
  end.

(** The object of the documentation, [{ width: 10, height: 20 }]. *)
Definition rectangle : JSON.value :=
  JSON.Obj [("width", JSON.Number 10); ("height", JSON.Number 20)].

(** A prototype with a computed-area method, [this.width * this.height]. *)
Definition getArea : Method :=
  fun this =>
    match assoc "width" this, assoc "height" this with
    | Some (JSON.Number w), Some (JSON.Number h) => Normal (JSON.Number (w * h))
    | _, _ => Throw TypeError_not_a_function
    end.

Definition Rectangle_prototype : Prototype := [("getArea", getArea)].

(** The fixed enumeration, as the constructor writes it into [order]. *)
Abbreviation enumeration := (SelectorBuilderClass.order SelectorBuilderClass.constructor).

(** Case analysis on whether a tag is one of the literal tags it is compared
    with. *)
Ltac case_tag t :=
  repeat match goal with
         | |- context [String.eqb ?a t] =>
             destruct (String.eqb_spec a t); [subst t|]
         | |- context [String.eqb t ?a] =>
             destruct (String.eqb_spec t a); [subst t|]
         end.

(** ** Further vocabulary *)

(** The category indices of the parts of a builder, in insertion order. *)
Definition part_indices (this : SelectorBuilderClass.t) : list Z :=
  map (fun p => category_index (type p)) (SelectorBuilderClass.selectors this).

(** What every builder the program makes keeps: the [order] field of the
    constructor, parts that are the parts of some run of category calls in
    which no singleton category occurs twice, and the flag of every
    singleton category that has a part. *)
Definition well_formed (obj : SelectorBuilderClass.t) : Prop :=
  constructed obj
  /\ exists cs : list call,
       SelectorBuilderClass.selectors obj = map part cs
       /\ forall k, singleton k = true ->
                    (occurrences k cs <= 1)%nat
                    /\ ((1 <= occurrences k cs)%nat -> already_added k obj = true).

(** What [join] prints for what [stringify] returned. *)
Definition text (s : option string) : string := Array.to_joined s.

(** ** The values the JSON model covers *)

Module Fragment.

(** Text made of ASCII characters. *)
Definition ascii_only (s : string) : bool :=
  forallb (fun a => (N_of_ascii a <? 128)%N) (list_ascii_of_string s).

(** A key that keeps its place in the enumeration order: ASCII and not
    starting with a digit. *)
Definition plain_key (k : string) : bool :=
  ascii_only k
  && match k with
     | String a _ => negb (JSON.is_digit a)
     | EmptyString => true
     end.

Fixpoint distinct (keys : list string) : bool :=
  match keys with
  | [] => true
  | k :: keys' => negb (existsb (String.eqb k) keys') && distinct keys'
  end.

(** The values of the fragment: integers that a double holds exactly, ASCII
    strings, arrays of such values, and objects whose keys are plain and
    distinct. *)
Fixpoint covers (v : JSON.value) : bool :=
  match v with
  | JSON.Null | JSON.Bool _ => true
  | JSON.Number n => (- 2 ^ 53 <? n) && (n <? 2 ^ 53)
  | JSON.Str s => ascii_only s
  | JSON.Arr items => forallb covers items
  | JSON.Obj members =>
      forallb plain_key (map fst members)
      && distinct (map fst members)
      && forallb (fun m => covers (snd m)) members
  end.

(** A bound on the fuel the parser needs for the text of a value. *)
Fixpoint size (v : JSON.value) : nat :=
  match v with
  | JSON.Arr items => S (list_sum (map (fun x => S (size x)) items))
  | JSON.Obj members => S (list_sum (map (fun m => S (size (snd m))) members))
  | _ => 1
  end.

(** Text that can follow a number: not a digit, a point or an exponent. *)
Definition ends_number (rest : list ascii) : bool :=
  match rest with
  | [] => true
  | a :: _ =>
      negb (JSON.is_digit a || Ascii.eqb a "." || Ascii.eqb a "e" || Ascii.eqb a "E")
  end.

End Fragment.

(** The characters the text of a value can start with. *)
Definition starts_value (a : ascii) : bool :=
  Ascii.eqb a "n" || Ascii.eqb a "t" || Ascii.eqb a "f" || Ascii.eqb a JSON.dquote
  || Ascii.eqb a "[" || Ascii.eqb a "{" || Ascii.eqb a "-" || JSON.is_digit a.

(** [parse_value] reads back the text of every value of the fragment when
    it is given at most [bound] units of fuel, as long as that is enough for
    the value. *)
Definition reads_back (bound : nat) : Prop :=
  forall (fuel : nat) (v : JSON.value) (rest : list ascii),
    (fuel <= bound)%nat ->
    Fragment.covers v = true ->
    (Fragment.size v <= fuel)%nat ->
    Fragment.ends_number rest = true ->
    JSON.parse_value fuel (list_ascii_of_string (JSON.stringify v) ++ rest)
    = JSON.Parsed v rest.

(** The values that are objects to JavaScript, on which a prototype can be
    set. *)
Definition is_structure (v : JSON.value) : bool :=
  match v with
  | JSON.Obj _ | JSON.Arr _ => true
  | _ => false
  end.

(** * Properties *)

(** The first example of the documentation comment. *)
Example documented_id_and_classes :
  (SelectorBuilderClass.id "main" ;; SelectorBuilderClass.class "container" ;;
   SelectorBuilderClass.class "editable" ;; SelectorBuilderClass.stringify)%js
    SelectorBuilderClass.constructor
  = (Normal (Some "#main.container.editable"),
     SelectorBuilderClass.mk [] [] (Flags.mk false true false)
       (SelectorBuilderClass.order SelectorBuilderClass.constructor)).
Proof. reflexivity. Qed.

(** [id] after [class] is out of order. *)
Example id_after_class_throws :
  fst ((SelectorBuilderClass.class "a" ;; SelectorBuilderClass.id "x")%js
    SelectorBuilderClass.constructor) = Throw SelectorOrderError.
Proof. reflexivity. Qed.

(** The nested example of the documentation comment. *)
Example documented_nested_combine :
  fst (documented_example []) =
  Normal (Some "div#main.container.draggable + table#data ~ tr:nth-of-type(even)   td:nth-of-type(even)").
Proof. vm_compute. reflexivity. Qed.


(** ** Facts about the array methods *)

Lemma slice_prefix {A} (arr : list A) (i : nat) :
  (i <= length arr)%nat -> Array.slice arr 0 (Some (Z.of_nat i)) = take i arr.
Proof.
  intros Hi. unfold Array.slice, Array.relative.
  destruct (0 <? 0) eqn:E0; [lia|].
  destruct (Z.of_nat i <? 0) eqn:Ei; [lia|].
  rewrite Z.min_l by lia. rewrite Z.min_l by lia.
  replace (Z.to_nat (Z.of_nat i - 0)) with i by lia.
  reflexivity.
Qed.

Lemma slice_suffix {A} (arr : list A) (k : Z) :
  0 <= k -> Array.slice arr k None = drop (Z.to_nat k) arr.
Proof.
  intros Hk. unfold Array.slice, Array.relative.
  destruct (k <? 0) eqn:Ek; [lia|].
  destruct (Z.le_gt_cases k (Z.of_nat (length arr))) as [Hle|Hgt].
  - rewrite Z.min_l by lia. apply firstn_all2. rewrite length_drop. lia.
  - rewrite Z.min_r by lia.
    rewrite (drop_ge arr (Z.to_nat k)) by lia.
    rewrite (drop_ge arr (Z.to_nat (Z.of_nat (length arr)))) by lia.
    apply take_nil.
Qed.

Lemma every_from_false {A} (f : A -> Z -> bool) (arr : list A) (i0 : Z) :
  Array.every_from f i0 arr = false <->
  exists (n : nat) (x : A), arr !! n = Some x /\ f x (i0 + Z.of_nat n) = false.
Proof.
  revert i0. induction arr as [|a arr IH]; intros i0; simpl.
  - split; [discriminate|]. intros (n & x & Hn & _). destruct n; discriminate.
  - rewrite andb_false_iff, IH. split.
    + intros [Ha | (n & x & Hn & Hf)].
      * exists 0%nat, a. split; [reflexivity|]. rewrite Z.add_0_r. exact Ha.
      * exists (S n), x. split; [exact Hn|].
        replace (i0 + Z.of_nat (S n)) with (i0 + 1 + Z.of_nat n) by lia. exact Hf.
    + intros (n & x & Hn & Hf). destruct n as [|n]; simpl in Hn.
      * left. injection Hn as ->. rewrite Z.add_0_r in Hf. exact Hf.
      * right. exists n, x. split; [exact Hn|].
        replace (i0 + 1 + Z.of_nat n) with (i0 + Z.of_nat (S n)) by lia. exact Hf.
Qed.

Lemma every_false {A} (f : A -> Z -> bool) (arr : list A) :
  Array.every f arr = false <->
  exists (n : nat) (x : A), arr !! n = Some x /\ f x (Z.of_nat n) = false.
Proof. unfold Array.every. rewrite every_from_false. reflexivity. Qed.

(** ** The order check *)

Lemma indexOf_enumeration (t : string) :
  Array.indexOf enumeration t = category_index t.
Proof.
  unfold Array.indexOf, category_index. cbn -[String.eqb].
  rewrite !(String.eqb_sym _ t). reflexivity.
Qed.

Lemma indexOf_enumeration_range (t : string) : -1 <= category_index t <= 5.
Proof. unfold category_index. repeat case_match; lia. Qed.

(** The test of the inner callback of [checkOrder]: [u] is listed after [t]. *)
Lemma listed_after (t u : string) :
  Array.includes (Array.slice enumeration (Array.indexOf enumeration t + 1) None) u
  = (category_index t <? category_index u).
Proof.
  rewrite indexOf_enumeration.
  rewrite slice_suffix by (pose proof (indexOf_enumeration_range t); lia).
  unfold category_index.
  unfold Array.includes.
  case_tag t;
    match goal with
    | |- context [Z.to_nat ?z] =>
        let n := eval vm_compute in (Z.to_nat z) in change (Z.to_nat z) with n
    end;
    cbn [drop skipn existsb orb SelectorBuilderClass.order SelectorBuilderClass.constructor];
    case_tag u; try reflexivity; try congruence.
Qed.

(** [checkOrder] finds the order invalid exactly when two parts are
    inverted. *)
Lemma isValidOrder_false (this : SelectorBuilderClass.t) :
  constructed this ->
  SelectorBuilderClass.isValidOrder this = false
  <-> inverted (SelectorBuilderClass.selectors this).
Proof.
  intros Hc. unfold SelectorBuilderClass.isValidOrder. rewrite Hc.
  rewrite every_false. unfold inverted. split.
  - intros (j & later & Hj & Hin).
    rewrite slice_prefix in Hin by (apply lookup_lt_Some in Hj; lia).
    apply every_false in Hin as (i & earlier & Hi & Hneg).
    apply lookup_take_Some in Hi as [Hi Hlt].
    exists i, j, earlier, later. repeat split; try assumption.
    rewrite listed_after in Hneg. apply negb_false_iff, Z.ltb_lt in Hneg. lia.
  - intros (i & j & earlier & later & Hlt & Hi & Hj & Hgt).
    exists j, later. split; [exact Hj|].
    rewrite slice_prefix by (apply lookup_lt_Some in Hj; lia).
    apply every_false. exists i, earlier. split.
    + apply lookup_take_Some. split; assumption.
    + rewrite listed_after. apply negb_false_iff, Z.ltb_lt. lia.
Qed.

Lemma isValidOrder_true (this : SelectorBuilderClass.t) :
  constructed this ->
  SelectorBuilderClass.isValidOrder this = true
  <-> ~ inverted (SelectorBuilderClass.selectors this).
Proof.
  intros Hc. rewrite <- (isValidOrder_false this Hc).
  destruct (SelectorBuilderClass.isValidOrder this); split; congruence.
Qed.

(** ** The category methods, one equation for all six *)

Lemma method_run (c : call) (this : SelectorBuilderClass.t) :
  method c this =
  if already_added (fst c) this then (Throw DuplicateSelectorPartError, this)
  else if decide (fst c = Category.pseudoElement) then (Normal tt, appended c this)
  else (if SelectorBuilderClass.isValidOrder (appended c this) then Normal tt
        else Throw SelectorOrderError, appended c this).
Proof.
  destruct c as [k v], this as [sels combs [fe fi fp] ord].
  destruct k, fe, fi, fp; try reflexivity;
    unfold method, appended, part, SelectorBuilderClass.element,
      SelectorBuilderClass.id, SelectorBuilderClass.class,
      SelectorBuilderClass.attr, SelectorBuilderClass.pseudoClass,
      SelectorBuilderClass.checkOrder, SelectorBuilderClass.push_selector,
      bind, get, modify, throw, ret, Array.push;
    cbn -[SelectorBuilderClass.isValidOrder];
    destruct (SelectorBuilderClass.isValidOrder _); reflexivity.
Qed.

Lemma category_index_name (k : Category.t) :
  category_index (Category.name k) = Category.index k.
Proof. destruct k; reflexivity. Qed.

Lemma constructed_appended (c : call) (this : SelectorBuilderClass.t) :
  constructed this -> constructed (appended c this).
Proof. intros H. exact H. Qed.

(** ** C2: the order error and inverted pairs *)

(** C2, as amended: for a constructed builder and each of element, id,
    class, attr and pseudoClass, a call that gets past the duplicate guard
    (always, for class, attr and pseudoClass) appends its part and then
    throws SelectorOrderError exactly when the parts have an inverted pair;
    a call of element or id whose flag is already set throws
    DuplicateSelectorPartError and leaves the builder as it was. *)
Theorem C2_order_error_iff_inverted_pair
    (this : SelectorBuilderClass.t) (k : Category.t) (v : string) :
  constructed this ->
  k <> Category.pseudoElement ->
  (already_added k this = false ->
     SelectorBuilderClass.selectors (snd (method (k, v) this))
     = SelectorBuilderClass.selectors this ++ [part (k, v)]
     /\ order_error_iff_inverted (k, v) this)
  /\ (already_added k this = true ->
     method (k, v) this = (Throw DuplicateSelectorPartError, this))
  /\ (k = Category.class \/ k = Category.attribute \/ k = Category.pseudoClass ->
     already_added k this = false).
Proof.
  intros Hc Hk. unfold order_error_iff_inverted. rewrite method_run. cbn [fst].
  destruct (decide (k = Category.pseudoElement)); [contradiction|].
  split; [|split].
  - intros ->. cbn [fst snd]. split; [reflexivity|].
    rewrite <- (isValidOrder_false _ (constructed_appended (k, v) this Hc)).
    destruct (SelectorBuilderClass.isValidOrder _); split; congruence.
  - intros ->. reflexivity.
  - intros [-> | [-> | ->]]; reflexivity.
Qed.

Lemma C2_order_error_iff_inverted_pair_witness :
  order_error_iff_inverted (Category.id, "x")
    (snd (SelectorBuilderClass.class "a" SelectorBuilderClass.constructor))
  /\ fst (method (Category.id, "x")
       (snd (SelectorBuilderClass.class "a" SelectorBuilderClass.constructor)))
     = Throw SelectorOrderError.
Proof.
  split; [|reflexivity].
  apply (C2_order_error_iff_inverted_pair
           (snd (SelectorBuilderClass.class "a" SelectorBuilderClass.constructor))
           Category.id "x"); [reflexivity | discriminate | reflexivity].
Defined.

(** C2, as stated, fails: on a builder whose element flag is set and whose
    parts are inverted, [element] throws the duplicate error, not the order
    error.  The parts are inverted as the call leaves them, and would be if
    the part of the call were appended. *)
Lemma C2_counterexample_duplicate_guard_first :
  constructed class_then_element
  /\ fst (method (Category.element, "p") class_then_element)
     = Throw DuplicateSelectorPartError
  /\ inverted (SelectorBuilderClass.selectors
                 (snd (method (Category.element, "p") class_then_element)))
  /\ inverted (SelectorBuilderClass.selectors class_then_element
               ++ [part (Category.element, "p")])
  /\ ~ order_error_iff_inverted (Category.element, "p") class_then_element.
Proof.
  assert (Hinv : inverted (SelectorBuilderClass.selectors
                   (snd (method (Category.element, "p") class_then_element)))).
  { exists 0%nat, 1%nat, {| type := "class"; value := ".a" |},
      {| type := "element"; value := "div" |}.
    split; [lia|]. split; [reflexivity|]. split; [reflexivity|].
    vm_compute. reflexivity. }
  split; [reflexivity|]. split; [reflexivity|]. split; [exact Hinv|].
  split.
  - destruct Hinv as (i & j & earlier & later & Hlt & Hi & Hj & Hgt).
    exists i, j, earlier, later.
    repeat split; try assumption; apply lookup_app_l_Some; assumption.
  - intros [_ H]. specialize (H Hinv). discriminate H.
Qed.

(** ** Runs of category calls *)

Lemma not_inverted_snoc (parts : list Selector) (p : Selector) :
  ~ inverted parts ->
  (forall e, e ∈ parts -> category_index (type e) <= category_index (type p)) ->
  ~ inverted (parts ++ [p]).
Proof.
  intros Hparts Hle (i & j & earlier & later & Hlt & Hi & Hj & Hgt).
  apply lookup_snoc_Some in Hj as [[Hjlt Hj] | [Hjeq <-]].
  - apply Hparts. exists i, j, earlier, later.
    rewrite lookup_app_l in Hi by lia. auto.
  - rewrite lookup_app_l in Hi by lia.
    assert (earlier ∈ parts) as Hin by (apply list_elem_of_lookup; eauto).
    specialize (Hle earlier Hin). lia.
Qed.

Lemma occurrences_cons (k : Category.t) (c : call) (cs : list call) :
  occurrences k (c :: cs)
  = ((if decide (fst c = k) then 1 else 0) + occurrences k cs)%nat.
Proof.
  unfold occurrences. rewrite filter_cons.
  destruct (decide (fst c = k)); reflexivity.
Qed.

Lemma already_added_appended (k : Category.t) (c : call) (this : SelectorBuilderClass.t) :
  already_added k (appended c this) = true ->
  already_added k this = true \/ fst c = k.
Proof.
  destruct c as [k' v], this as [sels combs [fe fi fp] ord].
  destruct k, k'; cbn; auto.
Qed.

Lemma already_added_repeatable (k : Category.t) (this : SelectorBuilderClass.t) :
  already_added k this = true ->
  k = Category.element \/ k = Category.id \/ k = Category.pseudoElement.
Proof. destruct k; cbn; auto; discriminate. Qed.

Lemma nondecreasing_cons (a : Z) (l : list Z) :
  nondecreasing (a :: l) = true ->
  nondecreasing l = true /\ (forall b, head l = Some b -> a <= b).
Proof.
  destruct l as [|b l]; cbn [nondecreasing head].
  - intros _. split; [reflexivity | discriminate].
  - intros [Hab Hl]%andb_true_iff. split; [exact Hl|].
    intros ? [= <-]. lia.
Qed.

(** A run of calls that fits its receiver returns normally and appends one
    part per call: the parts already there are in order and not after the
    first call, the calls do not go down in category, and no singleton
    category is called twice or again. *)
Lemma methods_fit (cs : list call) :
  forall this : SelectorBuilderClass.t,
    constructed this ->
    ~ inverted (SelectorBuilderClass.selectors this) ->
    (forall e c, e ∈ SelectorBuilderClass.selectors this -> head cs = Some c ->
                 category_index (type e) <= Category.index (fst c)) ->
    nondecreasing (map (fun c => Category.index (fst c)) cs) = true ->
    (forall k, singleton k = true -> (occurrences k cs <= 1)%nat) ->
    (forall k, already_added k this = true -> occurrences k cs = 0%nat) ->
    methods cs this = (Normal tt, appended_all cs this).
Proof.
  induction cs as [|c cs IH]; intros this Hc Hinv Hhead Hnd Honce Hflag.
  - reflexivity.
  - cbn [methods appended_all fold_left]. unfold bind.
    assert (Hguard : already_added (fst c) this = false).
    { destruct (already_added (fst c) this) eqn:E; [|reflexivity].
      specialize (Hflag _ E). rewrite occurrences_cons in Hflag.
      destruct (decide (fst c = fst c)); [lia | contradiction]. }
    assert (Hsnoc : ~ inverted (SelectorBuilderClass.selectors (appended c this))).
    { apply not_inverted_snoc; [exact Hinv|].
      intros e He. cbn [part type]. rewrite category_index_name.
      apply (Hhead e c He). reflexivity. }
    assert (Hrun : method c this = (Normal tt, appended c this)).
    { rewrite method_run, Hguard.
      destruct (decide (fst c = Category.pseudoElement)); [reflexivity|].
      apply (isValidOrder_true _ (constructed_appended c this Hc)) in Hsnoc.
      rewrite Hsnoc. reflexivity. }
    rewrite Hrun.
    cbn [map] in Hnd. apply nondecreasing_cons in Hnd as [Hnd Hfirst].
    apply IH.
    + exact Hc.
    + exact Hsnoc.
    + intros e c' He Hc'. cbn [appended SelectorBuilderClass.selectors] in He.
      assert (Category.index (fst c) <= Category.index (fst c')) as Hcc'.
      { apply Hfirst. destruct cs; [discriminate|].
        cbn in Hc' |- *. injection Hc' as ->. reflexivity. }
      apply elem_of_app in He as [He | He].
      * specialize (Hhead e c He eq_refl). lia.
      * apply list_elem_of_singleton in He as ->.
        cbn [part type]. rewrite category_index_name. exact Hcc'.
    + exact Hnd.
    + intros k Hk. specialize (Honce k Hk). rewrite occurrences_cons in Honce. lia.
    + intros k Hk.
      assert (singleton k = true) as Hs
        by (apply already_added_repeatable in Hk as [-> | [-> | ->]]; reflexivity).
      apply already_added_appended in Hk as [Hk | Hk].
      * specialize (Hflag k Hk). rewrite occurrences_cons in Hflag. lia.
      * specialize (Honce k Hs). rewrite occurrences_cons in Honce.
        destruct (decide (fst c = k)); [lia | contradiction].
Qed.

(** ** Running methods through references *)

Lemma stringify_run (this : SelectorBuilderClass.t) :
  SelectorBuilderClass.stringify this =
  (Normal
     (if negb (Z.of_nat (length (SelectorBuilderClass.selectors this)) =? 0) then
        Some (Array.join (map (fun item => value item) (SelectorBuilderClass.selectors this)))
      else if negb (Z.of_nat (length (SelectorBuilderClass.combineSelectors this)) =? 0) then
        Some (Array.join (SelectorBuilderClass.combineSelectors this))
      else None),
   SelectorBuilderClass.mk [] [] (SelectorBuilderClass.flags this)
     (SelectorBuilderClass.order this)).
Proof. reflexivity. Qed.

Lemma invoke_run {A} (m : M SelectorBuilderClass.t A) (this : SelectorBuilderClass.ref)
    (h : list SelectorBuilderClass.t) (obj : SelectorBuilderClass.t) :
  h !! this = Some obj ->
  SelectorBuilderClass.invoke this m h = (fst (m obj), <[this := snd (m obj)]> h).
Proof.
  intros Hobj. unfold SelectorBuilderClass.invoke. rewrite Hobj.
  destruct (m obj); reflexivity.
Qed.

Lemma invoke_dangling {A} (m : M SelectorBuilderClass.t A) (this : SelectorBuilderClass.ref)
    (h : list SelectorBuilderClass.t) :
  h !! this = None ->
  SelectorBuilderClass.invoke this m h = (Throw SelectorBuilderClass.TypeError, h).
Proof. intros Hobj. unfold SelectorBuilderClass.invoke. rewrite Hobj. reflexivity. Qed.

Lemma lookup_new (h : list SelectorBuilderClass.t) (obj : SelectorBuilderClass.t) :
  (h ++ [obj]) !! length h = Some obj.
Proof. apply list_lookup_middle. reflexivity. Qed.

Lemma insert_new (h : list SelectorBuilderClass.t) (obj obj' : SelectorBuilderClass.t) :
  <[length h := obj']> (h ++ [obj]) = h ++ [obj'].
Proof.
  rewrite insert_app_r_alt by lia. rewrite Nat.sub_diag. reflexivity.
Qed.

(** A chain on one receiver is one run of its methods on the object. *)
Lemma chained_run (cs : list call) :
  forall (this : SelectorBuilderClass.ref) (h : list SelectorBuilderClass.t)
         (obj : SelectorBuilderClass.t),
    h !! this = Some obj ->
    chained this cs h = (fst (methods cs obj), <[this := snd (methods cs obj)]> h).
Proof.
  induction cs as [|c cs IH]; intros this h obj Hobj.
  - cbn. rewrite list_insert_id by exact Hobj. reflexivity.
  - cbn [chained methods]. unfold bind.
    rewrite (invoke_run _ _ _ _ Hobj).
    destruct (method c obj) as [[[]|e] obj']; cbn [fst snd]; [|reflexivity].
    rewrite (IH this _ obj').
    + rewrite list_insert_insert_eq. reflexivity.
    + apply list_lookup_insert_eq. apply lookup_lt_Some in Hobj. exact Hobj.
Qed.

Lemma facade_run (c : call) (h : list SelectorBuilderClass.t) :
  facade c h =
  (match fst (method c SelectorBuilderClass.constructor) with
   | Normal _ => Normal (length h)
   | Throw e => Throw e
   end, h ++ [snd (method c SelectorBuilderClass.constructor)]).
Proof.
  assert (Hgen : forall m : M SelectorBuilderClass.t unit,
             (this <- SelectorBuilderClass.new ;;
              SelectorBuilderClass.invoke this m ;; ret this)%js h
             = (match fst (m SelectorBuilderClass.constructor) with
                | Normal _ => Normal (length h)
                | Throw e => Throw e
                end, h ++ [snd (m SelectorBuilderClass.constructor)])).
  { intros m. unfold bind, SelectorBuilderClass.new, ret.
    rewrite (invoke_run _ _ _ _ (lookup_new h _)), insert_new.
    destruct (m SelectorBuilderClass.constructor) as [[u|e] obj']; reflexivity. }
  destruct c as [[] v]; apply Hgen.
Qed.

(** A chain from the facade to [stringify] is one run on a new object, which
    is added at the end of the store. *)
Lemma chain_run (c : call) (cs : list call) (h : list SelectorBuilderClass.t) :
  chain c cs h =
  (fst ((methods (c :: cs) ;; SelectorBuilderClass.stringify)%js
          SelectorBuilderClass.constructor),
   h ++ [snd ((methods (c :: cs) ;; SelectorBuilderClass.stringify)%js
                SelectorBuilderClass.constructor)]).
Proof.
  unfold chain. cbn [methods]. unfold bind. rewrite facade_run. cbv beta.
  destruct (method c SelectorBuilderClass.constructor) as [[[]|e] obj1]; cbn [fst snd];
    [|reflexivity].
  rewrite (chained_run cs _ _ obj1 (lookup_new h _)), insert_new.
  destruct (methods cs obj1) as [[[]|e] obj2]; cbn [fst snd]; [|reflexivity].
  rewrite (invoke_run _ _ _ _ (lookup_new h _)), insert_new. reflexivity.
Qed.

Lemma selectors_appended_all (cs : list call) :
  forall this : SelectorBuilderClass.t,
    SelectorBuilderClass.selectors (appended_all cs this)
    = SelectorBuilderClass.selectors this ++ map part cs.
Proof.
  induction cs as [|c cs IH]; intros this; cbn [appended_all fold_left map].
  - rewrite app_nil_r. reflexivity.
  - fold (appended_all cs (appended c this)). rewrite IH.
    cbn [appended SelectorBuilderClass.selectors]. rewrite <- app_assoc. reflexivity.
Qed.

Lemma join_parts (cs : list call) :
  Array.join (map (fun item => value item) (map part cs)) = concat_fragments cs.
Proof.
  induction cs as [|c cs IH]; [reflexivity|].
  cbn [map Array.join fold_right concat_fragments part value].
  unfold Array.join in IH. rewrite IH. reflexivity.
Qed.

Lemma not_inverted_nil : ~ inverted [].
Proof. intros (i & j & e & l & _ & Hi & _). destruct i; discriminate Hi. Qed.

Lemma valid_ordering_fits (cs : list call) :
  valid_ordering cs = true ->
  methods cs SelectorBuilderClass.constructor
  = (Normal tt, appended_all cs SelectorBuilderClass.constructor).
Proof.
  unfold valid_ordering. rewrite !andb_true_iff, !Nat.leb_le.
  intros [[[Hnd He] Hi] Hp].
  apply methods_fit.
  - reflexivity.
  - exact not_inverted_nil.
  - intros e c He'. apply elem_of_nil in He'. contradiction.
  - exact Hnd.
  - intros [] Hk; try discriminate Hk; assumption.
  - intros [] Hk; discriminate Hk.
Qed.

(** ** The valid orderings are those of the pattern *)

Lemma nondecreasing_two (a b : Z) (l : list Z) :
  nondecreasing (a :: b :: l) = (a <=? b) && nondecreasing (b :: l).
Proof. reflexivity. Qed.

Lemma nondecreasing_app (l1 l2 : list Z) (m : Z) :
  nondecreasing l1 = true -> nondecreasing l2 = true ->
  Forall (fun x => x <= m) l1 -> Forall (fun x => m <= x) l2 ->
  nondecreasing (l1 ++ l2) = true.
Proof.
  intros H1 H2 Hle Hge. induction l1 as [|a l1 IH]; [exact H2|].
  apply Forall_cons in Hle as [Ha Hle].
  apply nondecreasing_cons in H1 as [H1 Hhead].
  specialize (IH H1 Hle).
  destruct l1 as [|a' l1]; cbn [app] in IH |- *.
  - destruct l2 as [|b l2]; [reflexivity|].
    apply Forall_cons in Hge as [Hb _].
    rewrite nondecreasing_two, IH, andb_true_r. apply Z.leb_le. lia.
  - rewrite nondecreasing_two, IH, andb_true_r.
    apply Z.leb_le. apply Hhead. reflexivity.
Qed.

Lemma nondecreasing_constant (l : list Z) (m : Z) :
  Forall (fun x => x = m) l -> nondecreasing l = true.
Proof.
  induction 1 as [|a l -> Hl IH]; [reflexivity|].
  destruct l as [|b l]; [reflexivity|].
  apply Forall_cons in Hl as [-> _]. rewrite nondecreasing_two, IH, andb_true_r.
  apply Z.leb_refl.
Qed.

Lemma segment_once (k : Category.t) (v : option string) :
  Forall (fun x => x = Category.index k)
    (map (fun c : call => Category.index (fst c)) (once k v)).
Proof. destruct v; repeat constructor. Qed.

Lemma segment_repeated (k : Category.t) (vs : list string) :
  Forall (fun x => x = Category.index k)
    (map (fun c : call => Category.index (fst c)) (map (pair k) vs)).
Proof. induction vs; constructor; [reflexivity | assumption]. Qed.

Lemma occurrences_app (k : Category.t) (l1 l2 : list call) :
  occurrences k (l1 ++ l2) = (occurrences k l1 + occurrences k l2)%nat.
Proof. unfold occurrences. rewrite filter_app, length_app. reflexivity. Qed.

Lemma occurrences_once (k k' : Category.t) (v : option string) :
  (occurrences k (once k' v) <= 1)%nat
  /\ (k <> k' -> occurrences k (once k' v) = 0%nat).
Proof.
  destruct v as [v|]; cbn [once]; [|split; [cbn; lia | reflexivity]].
  rewrite occurrences_cons. cbn [fst].
  destruct (decide (k' = k)); split; cbn; try lia; congruence.
Qed.

Lemma occurrences_repeated (k k' : Category.t) (vs : list string) :
  k <> k' -> occurrences k (map (pair k') vs) = 0%nat.
Proof.
  intros Hne. induction vs as [|v vs IH]; [reflexivity|].
  cbn [map]. rewrite occurrences_cons, IH. cbn [fst].
  destruct (decide (k' = k)); [congruence | reflexivity].
Qed.

(** Every sequence of the pattern
    [element? id? class* attribute* pseudoClass* pseudoElement?] is a valid
    ordering. *)
Lemma pattern_valid_ordering (e i : option string) (cls ats pcs : list string)
    (pe : option string) :
  valid_ordering (pattern e i cls ats pcs pe) = true.
Proof.
  unfold valid_ordering, pattern. rewrite !andb_true_iff, !Nat.leb_le.
  split; [split; [split|]|].
  - rewrite !map_app.
    pose proof (segment_once Category.element e) as S0.
    pose proof (segment_once Category.id i) as S1.
    pose proof (segment_repeated Category.class cls) as S2.
    pose proof (segment_repeated Category.attribute ats) as S3.
    pose proof (segment_repeated Category.pseudoClass pcs) as S4.
    pose proof (segment_once Category.pseudoElement pe) as S5.
    cbn [Category.index] in S0, S1, S2, S3, S4, S5.
    repeat first
      [ apply (nondecreasing_constant _ _ S5)
      | match goal with
        | S : Forall (fun x => x = ?m) ?l1 |- nondecreasing (?l1 ++ _) = true =>
            apply (nondecreasing_app _ _ m);
            [ apply (nondecreasing_constant _ _ S)
            |
            | eapply Forall_impl; [exact S | cbv beta; intros; lia]
            | rewrite ?Forall_app; repeat split;
              (eapply Forall_impl; [eassumption | cbv beta; intros; lia]) ]
        end ].
  - rewrite !occurrences_app.
    pose proof (occurrences_once Category.element Category.element e) as [H0 _].
    rewrite (proj2 (occurrences_once Category.element Category.id i)) by discriminate.
    rewrite (proj2 (occurrences_once Category.element Category.pseudoElement pe)) by discriminate.
    rewrite !occurrences_repeated by discriminate. lia.
  - rewrite !occurrences_app.
    pose proof (occurrences_once Category.id Category.id i) as [H0 _].
    rewrite (proj2 (occurrences_once Category.id Category.element e)) by discriminate.
    rewrite (proj2 (occurrences_once Category.id Category.pseudoElement pe)) by discriminate.
    rewrite !occurrences_repeated by discriminate. lia.
  - rewrite !occurrences_app.
    pose proof (occurrences_once Category.pseudoElement Category.pseudoElement pe) as [H0 _].
    rewrite (proj2 (occurrences_once Category.pseudoElement Category.element e)) by discriminate.
    rewrite (proj2 (occurrences_once Category.pseudoElement Category.id i)) by discriminate.
    rewrite !occurrences_repeated by discriminate. lia.
Qed.

(** ** C1: what a valid chain renders to *)

(** C1: a chain of category calls in a valid ordering, started at the facade
    and ended by [stringify], returns normally with the concatenation of the
    fragments of its calls, in call order. *)
Theorem C1_valid_chain_renders_fragments_in_call_order
    (h : list SelectorBuilderClass.t) (c : call) (cs : list call) :
  valid_ordering (c :: cs) = true ->
  fst (chain c cs h) = Normal (Some (concat_fragments (c :: cs))).
Proof.
  intros Hvalid. rewrite chain_run. cbn [fst]. unfold bind.
  rewrite (valid_ordering_fits _ Hvalid). rewrite stringify_run. cbn [fst].
  rewrite selectors_appended_all. cbn [SelectorBuilderClass.constructor
    SelectorBuilderClass.selectors app].
  rewrite join_parts. reflexivity.
Qed.

Lemma C1_valid_chain_renders_fragments_in_call_order_witness :
  fst (chain (Category.element, "a")
         [(Category.attribute, "href$=.png"); (Category.pseudoClass, "focus")] [])
  = Normal (Some "a[href$=.png]:focus").
Proof.
  apply (C1_valid_chain_renders_fragments_in_call_order []
           (Category.element, "a")
           [(Category.attribute, "href$=.png"); (Category.pseudoClass, "focus")]).
  reflexivity.
Defined.

(** ** Singleton flags are never cleared *)

Lemma keeps_flags_refl (obj : SelectorBuilderClass.t) : keeps_flags obj obj.
Proof. intros k Hk. exact Hk. Qed.

Lemma later_store_refl (h : list SelectorBuilderClass.t) : later_store h h.
Proof. intros r obj Hr. exists obj. split; [exact Hr | apply keeps_flags_refl]. Qed.

Lemma later_store_trans (h1 h2 h3 : list SelectorBuilderClass.t) :
  later_store h1 h2 -> later_store h2 h3 -> later_store h1 h3.
Proof.
  intros H12 H23 r obj Hr.
  destruct (H12 r obj Hr) as (obj2 & Hr2 & Hk2).
  destruct (H23 r obj2 Hr2) as (obj3 & Hr3 & Hk3).
  exists obj3. split; [exact Hr3|]. intros k Hk. apply Hk3, Hk2, Hk.
Qed.

Lemma method_monotone (c : call) : flag_monotone (method c).
Proof.
  intros obj k Hk. rewrite method_run.
  destruct (already_added (fst c) obj); [exact Hk|].
  assert (already_added k (appended c obj) = true) as Happ.
  { destruct c as [k' v], obj as [sels combs [fe fi fp] ord].
    destruct k, k'; cbn in Hk |- *; congruence. }
  destruct (decide (fst c = Category.pseudoElement)); exact Happ.
Qed.

Lemma stringify_monotone : flag_monotone SelectorBuilderClass.stringify.
Proof. intros obj k Hk. destruct k; exact Hk. Qed.

Lemma get_monotone : flag_monotone (@get SelectorBuilderClass.t).
Proof. intros obj k Hk. exact Hk. Qed.

Lemma push_combineSelectors_monotone (v : option string) :
  flag_monotone (SelectorBuilderClass.push_combineSelectors v).
Proof. intros obj k Hk. destruct k; exact Hk. Qed.

Lemma invoke_monotone {A} (this : SelectorBuilderClass.ref) (m : M SelectorBuilderClass.t A) :
  flag_monotone m -> store_monotone (SelectorBuilderClass.invoke this m).
Proof.
  intros Hm h r obj Hr.
  destruct (h !! this) as [o|] eqn:Hthis.
  - rewrite (invoke_run _ _ _ _ Hthis). cbn [snd].
    destruct (decide (this = r)) as [->|Hne].
    + exists (snd (m o)). split.
      * apply list_lookup_insert_eq. apply lookup_lt_Some in Hr. exact Hr.
      * assert (o = obj) as -> by congruence. apply Hm.
    + exists obj. rewrite list_lookup_insert_ne by exact Hne.
      split; [exact Hr | apply keeps_flags_refl].
  - rewrite (invoke_dangling _ _ _ Hthis). apply later_store_refl. exact Hr.
Qed.

Lemma ret_monotone {A} (a : A) : store_monotone (@ret (list SelectorBuilderClass.t) A a).
Proof. intros h. apply later_store_refl. Qed.

Lemma bind_monotone {A B} (m : M (list SelectorBuilderClass.t) A)
    (f : A -> M (list SelectorBuilderClass.t) B) :
  store_monotone m -> (forall a, store_monotone (f a)) -> store_monotone (bind m f).
Proof.
  intros Hm Hf h. unfold bind. specialize (Hm h).
  destruct (m h) as [[a|e] h']; cbn [snd] in Hm |- *; [|exact Hm].
  apply (later_store_trans _ h'); [exact Hm | apply Hf].
Qed.

Lemma new_monotone : store_monotone SelectorBuilderClass.new.
Proof.
  intros h r obj Hr. exists obj. split; [|apply keeps_flags_refl].
  cbn. apply lookup_app_l_Some. exact Hr.
Qed.

Lemma combine_monotone (this s1 : SelectorBuilderClass.ref) (c : string)
    (s2 : SelectorBuilderClass.ref) :
  store_monotone (SelectorBuilderClass.combine this s1 c s2).
Proof.
  assert (Hpush : forall s, store_monotone (SelectorBuilderClass.push_stringified this s)).
  { intros s. unfold SelectorBuilderClass.push_stringified.
    apply bind_monotone; [apply invoke_monotone, get_monotone|]. intros _.
    apply bind_monotone; [apply invoke_monotone, stringify_monotone|]. intros v.
    destruct (decide (s = this)); [apply ret_monotone|].
    apply invoke_monotone, push_combineSelectors_monotone. }
  unfold SelectorBuilderClass.combine.
  apply bind_monotone; [apply Hpush|]. intros _.
  apply bind_monotone; [apply invoke_monotone, push_combineSelectors_monotone|]. intros _.
  apply bind_monotone; [apply Hpush|]. intros _.
  apply ret_monotone.
Qed.

Lemma facade_monotone (c : call) : store_monotone (facade c).
Proof.
  intros h r obj Hr. rewrite facade_run. cbn [snd].
  exists obj. split; [|apply keeps_flags_refl].
  apply lookup_app_l_Some. exact Hr.
Qed.

Lemma perform_later (a : action) (h : list SelectorBuilderClass.t) :
  later_store h (perform a h).
Proof.
  destruct a; cbn [perform].
  - apply invoke_monotone, method_monotone.
  - apply invoke_monotone, stringify_monotone.
  - apply combine_monotone.
  - apply facade_monotone.
  - unfold cssSelectorBuilder.combine.
    apply bind_monotone; [apply new_monotone|]. intros this. apply combine_monotone.
Qed.

Lemma run_later (script : list action) :
  forall h : list SelectorBuilderClass.t, later_store h (run script h).
Proof.
  induction script as [|a script IH]; intros h; cbn [run fold_left].
  - apply later_store_refl.
  - apply (later_store_trans _ (perform a h)); [apply perform_later | apply IH].
Qed.

(** ** C3: duplicates *)

Lemma already_added_after (k : Category.t) (v : string) (obj : SelectorBuilderClass.t) :
  singleton k = true -> already_added k (snd (method (k, v) obj)) = true.
Proof.
  intros Hk. rewrite method_run. cbn [fst].
  destruct (already_added k obj) eqn:E; [exact E|].
  assert (already_added k (appended (k, v) obj) = true) as Happ.
  { destruct obj as [sels combs [fe fi fp] ord]. destruct k; try discriminate Hk; reflexivity. }
  destruct (decide (k = Category.pseudoElement)); exact Happ.
Qed.

Lemma repeatable_not_guarded (k : Category.t) (obj : SelectorBuilderClass.t) :
  singleton k = false -> already_added k obj = false.
Proof. destruct k; try discriminate; reflexivity. Qed.

(** C3: once element, id or pseudoElement has been called on a builder, a
    second call of the same method throws DuplicateSelectorPartError,
    whatever the two arguments and whatever was done with the builders of
    the store in between; any number of calls of class, attr or pseudoClass
    on a builder never throws it. *)
Theorem C3_second_singleton_call_is_duplicate
    (h : list SelectorBuilderClass.t) (this : SelectorBuilderClass.ref)
    (obj : SelectorBuilderClass.t) (k : Category.t) (v1 v2 : string)
    (script : list action) (vs : list string) :
  (singleton k = true ->
   h !! this = Some obj ->
   fst (SelectorBuilderClass.invoke this (method (k, v2))
          (run script (snd (SelectorBuilderClass.invoke this (method (k, v1)) h))))
   = Throw DuplicateSelectorPartError)
  /\ (singleton k = false ->
      fst (methods (map (pair k) vs) obj) <> Throw DuplicateSelectorPartError).
Proof.
  split.
  - intros Hk Hobj. rewrite (invoke_run _ _ _ _ Hobj). cbn [snd].
    assert (Hthis : <[this := snd (method (k, v1) obj)]> h !! this
                    = Some (snd (method (k, v1) obj))).
    { apply list_lookup_insert_eq. apply lookup_lt_Some in Hobj. exact Hobj. }
    destruct (run_later script _ _ _ Hthis) as (obj2 & Hobj2 & Hkeeps).
    rewrite (invoke_run _ _ _ _ Hobj2). cbn [fst].
    rewrite method_run. cbn [fst].
    rewrite (Hkeeps k (already_added_after k v1 obj Hk)). reflexivity.
  - intros Hk. revert obj. induction vs as [|v vs IH]; intros obj.
    + discriminate.
    + cbn [map methods]. unfold bind. rewrite method_run. cbn [fst].
      rewrite (repeatable_not_guarded k obj Hk).
      destruct (decide (k = Category.pseudoElement)) as [->|_]; [discriminate Hk|].
      destruct (SelectorBuilderClass.isValidOrder _); [apply IH | discriminate].
Qed.

Lemma C3_second_singleton_call_is_duplicate_witness :
  fst (SelectorBuilderClass.invoke 0%nat (method (Category.id, "other"))
         (run [Invoke 0%nat (Category.class, "a"); Stringify 0%nat]
            (snd (SelectorBuilderClass.invoke 0%nat (method (Category.id, "main"))
                    [SelectorBuilderClass.constructor]))))
  = Throw DuplicateSelectorPartError
  /\ fst (methods (map (pair Category.class) ["a"; "a"; "b"])
            SelectorBuilderClass.constructor)
     <> Throw DuplicateSelectorPartError.
Proof.
  split.
  - apply (C3_second_singleton_call_is_duplicate [SelectorBuilderClass.constructor]
             0%nat SelectorBuilderClass.constructor Category.id "main" "other"
             [Invoke 0%nat (Category.class, "a"); Stringify 0%nat] []);
      reflexivity.
  - apply (C3_second_singleton_call_is_duplicate [] 0%nat
             SelectorBuilderClass.constructor Category.class "" ""
             [] ["a"; "a"; "b"]).
    reflexivity.
Defined.

(** ** combine *)

Lemma stringify_rendered (this : SelectorBuilderClass.t) :
  SelectorBuilderClass.stringify this = (Normal (rendered this), cleared this).
Proof. reflexivity. Qed.

(** [combine] on a receiver that is neither of its operands: the operands
    are rendered and cleared, left first, and the receiver gets the three
    entries.  When the two operands are one object it is rendered twice. *)
Lemma combine_run (h : list SelectorBuilderClass.t)
    (this left right : SelectorBuilderClass.ref) (c : string)
    (bt bl br : SelectorBuilderClass.t) :
  h !! this = Some bt -> h !! left = Some bl -> h !! right = Some br ->
  this <> left -> this <> right ->
  let br' := if decide (left = right) then cleared bl else br in
  SelectorBuilderClass.combine this left c right h =
  (Normal this,
   <[this := SelectorBuilderClass.set_combineSelectors
               (SelectorBuilderClass.combineSelectors bt
                  ++ [rendered bl; Some (padded c); rendered br']) bt]>
     (<[right := cleared br']> (<[left := cleared bl]> h))).
Proof.
  intros Hthis Hleft Hright Htl Htr br'.
  pose proof (lookup_lt_Some _ _ _ Hthis) as Lthis.
  pose proof (lookup_lt_Some _ _ _ Hleft) as Lleft.
  pose proof (lookup_lt_Some _ _ _ Hright) as Lright.
  unfold SelectorBuilderClass.combine, SelectorBuilderClass.push_stringified, bind.
  (* first operand *)
  rewrite (invoke_run _ _ _ _ Hthis). cbn [fst snd get].
  rewrite (list_insert_id _ _ _ Hthis).
  rewrite (invoke_run _ _ _ _ Hleft), stringify_rendered. cbn [fst snd].
  destruct (decide (left = this)) as [E|_]; [congruence|].
  set (h1 := <[left := cleared bl]> h).
  assert (H1this : h1 !! this = Some bt).
  { subst h1. rewrite list_lookup_insert_ne by congruence. exact Hthis. }
  rewrite (invoke_run _ _ _ _ H1this). cbn [fst snd].
  (* the combinator *)
  set (bt1 := snd (SelectorBuilderClass.push_combineSelectors (rendered bl) bt)).
  assert (H2this : <[this := bt1]> h1 !! this = Some bt1).
  { apply list_lookup_insert_eq. subst h1. rewrite length_insert. exact Lthis. }
  rewrite (invoke_run _ _ _ _ H2this). cbn [fst snd].
  rewrite list_insert_insert_eq.
  set (bt2 := snd (SelectorBuilderClass.push_combineSelectors (Some (" " +:+ c +:+ " ")) bt1)).
  (* second operand *)
  assert (H3this : <[this := bt2]> h1 !! this = Some bt2).
  { apply list_lookup_insert_eq. subst h1. rewrite length_insert. exact Lthis. }
  rewrite (invoke_run _ _ _ _ H3this). cbn [fst snd get].
  rewrite list_insert_insert_eq.
  assert (H3right : <[this := bt2]> h1 !! right = Some br').
  { rewrite list_lookup_insert_ne by congruence. subst h1 br'.
    destruct (decide (left = right)) as [->|Hne].
    - apply list_lookup_insert_eq. exact Lright.
    - rewrite list_lookup_insert_ne by congruence. exact Hright. }
  rewrite (invoke_run _ _ _ _ H3right), stringify_rendered. cbn [fst snd].
  destruct (decide (right = this)) as [E|_]; [congruence|].
  assert (H4this : <[right := cleared br']> (<[this := bt2]> h1) !! this = Some bt2).
  { rewrite list_lookup_insert_ne by congruence. exact H3this. }
  rewrite (invoke_run _ _ _ _ H4this). cbn [fst snd ret].
  f_equal.
  rewrite (list_insert_insert_ne _ right this) by congruence.
  rewrite list_insert_insert_eq.
  f_equal. subst bt2 bt1. unfold SelectorBuilderClass.push_combineSelectors, modify,
    SelectorBuilderClass.set_combineSelectors, Array.push, padded. cbn.
  rewrite <- !app_assoc. reflexivity.
Qed.

Lemma append_assoc (s1 s2 s3 : string) : (s1 +:+ s2) +:+ s3 = s1 +:+ (s2 +:+ s3).
Proof.
  induction s1 as [|a s1 IH]; [reflexivity|].
  change (String a ((s1 +:+ s2) +:+ s3) = String a (s1 +:+ (s2 +:+ s3))).
  rewrite IH. reflexivity.
Qed.

Lemma append_empty_r (s : string) : s +:+ EmptyString = s.
Proof.
  induction s as [|a s IH]; [reflexivity|].
  change (String a (s +:+ EmptyString) = String a s). rewrite IH. reflexivity.
Qed.

(** [cssSelectorBuilder.combine]: the receiver is a new object, so it is
    neither operand. *)
Lemma facade_combine_run (h : list SelectorBuilderClass.t)
    (left right : SelectorBuilderClass.ref) (c : string)
    (bl br : SelectorBuilderClass.t) :
  h !! left = Some bl -> h !! right = Some br ->
  let br' := if decide (left = right) then cleared bl else br in
  cssSelectorBuilder.combine left c right h =
  (Normal (length h),
   <[right := cleared br']> (<[left := cleared bl]> h)
   ++ [SelectorBuilderClass.set_combineSelectors
         [rendered bl; Some (padded c); rendered br']
         SelectorBuilderClass.constructor]).
Proof.
  intros Hleft Hright br'.
  pose proof (lookup_lt_Some _ _ _ Hleft) as Lleft.
  pose proof (lookup_lt_Some _ _ _ Hright) as Lright.
  unfold cssSelectorBuilder.combine, bind, SelectorBuilderClass.new.
  rewrite (combine_run (h ++ [SelectorBuilderClass.constructor]) (length h) left right c
             SelectorBuilderClass.constructor bl br);
    [| apply lookup_new | apply lookup_app_l_Some; assumption
     | apply lookup_app_l_Some; assumption | lia | lia].
  fold br'. f_equal.
  rewrite (insert_app_l h) by exact Lleft.
  rewrite (insert_app_l (<[left := cleared bl]> h)) by (rewrite length_insert; exact Lright).
  replace (length h) with (length (<[right := cleared br']> (<[left := cleared bl]> h)))
    by (rewrite !length_insert; reflexivity).
  apply insert_new.
Qed.

Lemma consumed_cleared (r : SelectorBuilderClass.ref) (h : list SelectorBuilderClass.t)
    (obj : SelectorBuilderClass.t) :
  h !! r = Some (cleared obj) -> consumed r h.
Proof.
  intros Hr. split.
  - exists (cleared obj). repeat split; [exact Hr].
  - rewrite (invoke_run _ _ _ _ Hr). reflexivity.
Qed.

Lemma operands_cleared (h : list SelectorBuilderClass.t)
    (left right : SelectorBuilderClass.ref) (bl br br' : SelectorBuilderClass.t) :
  h !! left = Some bl -> h !! right = Some br ->
  (exists o, <[right := cleared br']> (<[left := cleared bl]> h) !! left = Some (cleared o))
  /\ (exists o, <[right := cleared br']> (<[left := cleared bl]> h) !! right = Some (cleared o)).
Proof.
  intros Hleft Hright.
  pose proof (lookup_lt_Some _ _ _ Hleft) as Lleft.
  pose proof (lookup_lt_Some _ _ _ Hright) as Lright.
  split.
  - destruct (decide (right = left)) as [->|Hne].
    + exists br'. apply list_lookup_insert_eq. rewrite length_insert. exact Lleft.
    + exists bl. rewrite list_lookup_insert_ne by exact Hne.
      apply list_lookup_insert_eq. exact Lleft.
  - exists br'. apply list_lookup_insert_eq. rewrite length_insert. exact Lright.
Qed.

(** ** C4: what combine stores and what it renders to *)

(** C4: for two distinct builders of the store that render to [lt] and [rt],
    [combine] at the facade returns a new builder whose combination
    sequence is [lt], the combinator between two spaces, [rt], for any
    combinator string; rendering it returns the three joined; and the nested
    example of the documentation renders to the documented string. *)
Theorem C4_combine_stores_and_renders_three_entries
    (h : list SelectorBuilderClass.t) (left right : SelectorBuilderClass.ref)
    (c : string) (bl br : SelectorBuilderClass.t) (lt rt : string) :
  h !! left = Some bl -> h !! right = Some br -> left <> right ->
  rendered bl = Some lt -> rendered br = Some rt ->
  fst (cssSelectorBuilder.combine left c right h) = Normal (length h)
  /\ SelectorBuilderClass.combineSelectors
       <$> snd (cssSelectorBuilder.combine left c right h) !! length h
     = Some [Some lt; Some (" " +:+ c +:+ " "); Some rt]
  /\ SelectorBuilderClass.selectors
       <$> snd (cssSelectorBuilder.combine left c right h) !! length h
     = Some []
  /\ fst (SelectorBuilderClass.invoke (length h) SelectorBuilderClass.stringify
            (snd (cssSelectorBuilder.combine left c right h)))
     = Normal (Some (lt +:+ " " +:+ c +:+ " " +:+ rt))
  /\ fst (documented_example [])
     = Normal (Some "div#main.container.draggable + table#data ~ tr:nth-of-type(even)   td:nth-of-type(even)").
Proof.
  intros Hleft Hright Hne Hlt Hrt.
  rewrite (facade_combine_run h left right c bl br Hleft Hright).
  destruct (decide (left = right)) as [E|_]; [contradiction|].
  rewrite Hlt, Hrt. cbn [fst snd].
  set (h2 := <[right := cleared br]> (<[left := cleared bl]> h)).
  assert (Hlen : length h = length h2) by (subst h2; rewrite !length_insert; reflexivity).
  rewrite Hlen.
  split; [reflexivity|].
  split; [rewrite lookup_new; reflexivity|].
  split; [rewrite lookup_new; reflexivity|].
  split; [|vm_compute; reflexivity].
  rewrite (invoke_run _ _ _ _ (lookup_new h2 _)). cbn [fst].
  rewrite stringify_rendered. cbn [fst]. f_equal.
  unfold rendered, padded. cbn.
  unfold Array.join, Array.to_joined, Array.Joinable_nullable. cbn [fold_right].
  rewrite append_empty_r, !append_assoc. reflexivity.
Qed.

Lemma C4_combine_stores_and_renders_three_entries_witness :
  fst (SelectorBuilderClass.invoke 2%nat SelectorBuilderClass.stringify
         (snd (cssSelectorBuilder.combine 0%nat "+" 1%nat div_and_table)))
  = Normal (Some "div + table").
Proof.
  destruct (C4_combine_stores_and_renders_three_entries div_and_table 0%nat 1%nat "+"
              (SelectorBuilderClass.mk [{| type := "element"; value := "div" |}] []
                 (Flags.mk true false false) enumeration)
              (SelectorBuilderClass.mk [{| type := "element"; value := "table" |}] []
                 (Flags.mk true false false) enumeration)
              "div" "table")
    as (_ & _ & _ & H & _);
    [reflexivity | reflexivity | lia | reflexivity | reflexivity | exact H].
Defined.

(** ** C10: combine consumes its operands *)

(** C10: [combine] renders both of its operands, so when it returns both
    are consumed: their two sequences are empty and [stringify] on either
    returns [null].  This holds for [combine] at the facade, whose receiver
    is new, and for the method on a receiver that is neither operand. *)
Theorem C10_combine_consumes_its_operands
    (h : list SelectorBuilderClass.t) (this left right : SelectorBuilderClass.ref)
    (c : string) (bt bl br : SelectorBuilderClass.t) :
  h !! left = Some bl -> h !! right = Some br ->
  (consumed left (snd (cssSelectorBuilder.combine left c right h))
   /\ consumed right (snd (cssSelectorBuilder.combine left c right h)))
  /\ (h !! this = Some bt -> this <> left -> this <> right ->
      consumed left (snd (SelectorBuilderClass.combine this left c right h))
      /\ consumed right (snd (SelectorBuilderClass.combine this left c right h))).
Proof.
  intros Hleft Hright.
  pose proof (lookup_lt_Some _ _ _ Hleft) as Lleft.
  pose proof (lookup_lt_Some _ _ _ Hright) as Lright.
  split.
  - rewrite (facade_combine_run h left right c bl br Hleft Hright). cbn [snd].
    set (br' := if decide (left = right) then cleared bl else br).
    destruct (operands_cleared h left right bl br br' Hleft Hright) as [[ol Hl] [or Hr]].
    split.
    + apply (consumed_cleared _ _ ol). apply lookup_app_l_Some. exact Hl.
    + apply (consumed_cleared _ _ or). apply lookup_app_l_Some. exact Hr.
  - intros Hthis Htl Htr.
    rewrite (combine_run h this left right c bt bl br Hthis Hleft Hright Htl Htr).
    cbn [snd].
    set (br' := if decide (left = right) then cleared bl else br).
    destruct (operands_cleared h left right bl br br' Hleft Hright) as [[ol Hl] [or Hr]].
    split.
    + apply (consumed_cleared _ _ ol). rewrite list_lookup_insert_ne by exact Htl. exact Hl.
    + apply (consumed_cleared _ _ or). rewrite list_lookup_insert_ne by exact Htr. exact Hr.
Qed.

Lemma C10_combine_consumes_its_operands_witness :
  (consumed 0%nat (snd (cssSelectorBuilder.combine 0%nat "+" 1%nat three_builders))
   /\ consumed 1%nat (snd (cssSelectorBuilder.combine 0%nat "+" 1%nat three_builders)))
  /\ (consumed 0%nat (snd (SelectorBuilderClass.combine 2%nat 0%nat "+" 1%nat three_builders))
      /\ consumed 1%nat (snd (SelectorBuilderClass.combine 2%nat 0%nat "+" 1%nat three_builders))).
Proof.
  destruct (C10_combine_consumes_its_operands three_builders 2%nat 0%nat 1%nat "+"
              (SelectorBuilderClass.mk [{| type := "class"; value := ".x" |}] []
                 (Flags.mk false false false) enumeration)
              (SelectorBuilderClass.mk [{| type := "element"; value := "div" |}] []
                 (Flags.mk true false false) enumeration)
              (SelectorBuilderClass.mk [{| type := "element"; value := "table" |}] []
                 (Flags.mk true false false) enumeration)
              eq_refl eq_refl) as [Hfacade Hmethod].
  split; [exact Hfacade|].
  apply Hmethod; [reflexivity | lia | lia].
Defined.

(** The method called on its own left operand is outside C10: the push of
    the rendered left operand is lost, the receiver keeps the combinator and
    the right operand, and so it is not consumed. *)
Lemma combine_on_its_left_operand :
  fst (SelectorBuilderClass.invoke 0%nat SelectorBuilderClass.stringify
         (snd (SelectorBuilderClass.combine 0%nat 0%nat "+" 1%nat div_and_table)))
  = Normal (Some " + table").
Proof. reflexivity. Qed.

(** ** C5: pseudoElement does not check the order *)

Lemma inverted_snoc (parts : list Selector) (p : Selector) :
  inverted parts -> inverted (parts ++ [p]).
Proof.
  intros (i & j & earlier & later & Hlt & Hi & Hj & Hgt).
  exists i, j, earlier, later.
  repeat split; try assumption; apply lookup_app_l_Some; assumption.
Qed.

(** C5: [pseudoElement] never throws SelectorOrderError; when its flag is
    not set it returns normally with its part appended, whatever the parts
    already there.  It is the only category method like that: on a builder
    whose parts are already inverted, each of the other five throws
    SelectorOrderError when it gets past its duplicate guard. *)
Theorem C5_pseudoElement_never_throws_order_error
    (this : SelectorBuilderClass.t) (v : string) :
  fst (SelectorBuilderClass.pseudoElement v this) <> Throw SelectorOrderError
  /\ (Flags.pseudoElement (SelectorBuilderClass.flags this) = false ->
      SelectorBuilderClass.pseudoElement v this
      = (Normal tt, appended (Category.pseudoElement, v) this))
  /\ (forall k, constructed this ->
                inverted (SelectorBuilderClass.selectors this) ->
                k <> Category.pseudoElement -> already_added k this = false ->
                fst (method (k, v) this) = Throw SelectorOrderError).
Proof.
  change (SelectorBuilderClass.pseudoElement v this)
    with (method (Category.pseudoElement, v) this).
  split; [|split].
  - rewrite method_run. cbn [fst].
    destruct (already_added _ this); cbn; discriminate.
  - intros Hflag. rewrite method_run. cbn [fst already_added]. rewrite Hflag.
    reflexivity.
  - intros k Hc Hinv Hk Hguard. rewrite method_run. cbn [fst]. rewrite Hguard.
    destruct (decide (k = Category.pseudoElement)); [contradiction|]. cbn [fst].
    assert (SelectorBuilderClass.isValidOrder (appended (k, v) this) = false) as ->.
    { apply (isValidOrder_false _ (constructed_appended (k, v) this Hc)).
      apply inverted_snoc. exact Hinv. }
    reflexivity.
Qed.

Lemma C5_pseudoElement_never_throws_order_error_witness :
  SelectorBuilderClass.pseudoElement "after" attr_then_class
  = (Normal tt, appended (Category.pseudoElement, "after") attr_then_class)
  /\ fst (method (Category.class, "after") attr_then_class) = Throw SelectorOrderError.
Proof.
  destruct (C5_pseudoElement_never_throws_order_error attr_then_class "after")
    as (_ & Hpe & Hothers).
  split.
  - apply Hpe. reflexivity.
  - apply Hothers; [reflexivity | | discriminate | reflexivity].
    exists 0%nat, 1%nat, {| type := "attribute"; value := "[x]" |},
      {| type := "class"; value := ".a" |}.
    split; [lia|]. split; [reflexivity|]. split; [reflexivity|].
    vm_compute. reflexivity.
Defined.

(** ** C6: the order error comes after the append *)

Lemma join_app (l1 l2 : list string) :
  Array.join (l1 ++ l2) = Array.join l1 +:+ Array.join l2.
Proof.
  unfold Array.join. induction l1 as [|s l1 IH]; [reflexivity|].
  cbn [app fold_right]. rewrite IH, append_assoc. reflexivity.
Qed.

Lemma rendered_parts (this : SelectorBuilderClass.t) :
  SelectorBuilderClass.selectors this <> [] ->
  rendered this
  = Some (Array.join (map (fun item => value item) (SelectorBuilderClass.selectors this))).
Proof.
  intros Hne. unfold rendered. rewrite stringify_run. cbn [fst].
  destruct (SelectorBuilderClass.selectors this) as [|p parts]; [contradiction|].
  reflexivity.
Qed.

(** C6: when a category call throws SelectorOrderError its part is already
    in the parts sequence of the builder, after the parts that were there,
    and [stringify] on that builder returns the selector with the fragment
    of the call at its end. *)
Theorem C6_order_error_leaves_part_appended
    (this : SelectorBuilderClass.t) (k : Category.t) (v : string) :
  fst (method (k, v) this) = Throw SelectorOrderError ->
  SelectorBuilderClass.selectors (snd (method (k, v) this))
  = SelectorBuilderClass.selectors this ++ [part (k, v)]
  /\ fst (SelectorBuilderClass.stringify (snd (method (k, v) this)))
     = Normal (Some (Array.join (map (fun item => value item)
                                   (SelectorBuilderClass.selectors this))
                     +:+ fragment (k, v))).
Proof.
  rewrite method_run. cbn [fst].
  destruct (already_added k this); [intros [=]|].
  destruct (decide (k = Category.pseudoElement)); [intros [=]|].
  destruct (SelectorBuilderClass.isValidOrder _); [intros [=]|].
  intros _. cbn [fst snd]. split; [reflexivity|].
  rewrite stringify_rendered. cbn [fst]. f_equal.
  rewrite rendered_parts by (cbn; intros E; destruct (app_cons_not_nil _ _ _ (eq_sym E))).
  f_equal. cbn [appended SelectorBuilderClass.selectors].
  rewrite map_app, join_app. cbn [map part value]. f_equal.
  unfold Array.join. cbn [fold_right]. apply append_empty_r.
Qed.

Lemma C6_order_error_leaves_part_appended_witness :
  SelectorBuilderClass.selectors
    (snd (method (Category.id, "main")
            (snd (SelectorBuilderClass.class "a" SelectorBuilderClass.constructor))))
  = [{| type := "class"; value := ".a" |}; {| type := "id"; value := "#main" |}]
  /\ fst (SelectorBuilderClass.stringify
            (snd (method (Category.id, "main")
                    (snd (SelectorBuilderClass.class "a" SelectorBuilderClass.constructor)))))
     = Normal (Some ".a#main").
Proof.
  apply (C6_order_error_leaves_part_appended
           (snd (SelectorBuilderClass.class "a" SelectorBuilderClass.constructor))
           Category.id "main").
  reflexivity.
Defined.

(** ** C7 and C8: stringify *)

(** C7: [stringify] returns the joined fragments of the parts when there
    are parts, whatever the combination sequence holds; the joined
    combination sequence when there are no parts but the combination
    sequence is not empty; and [null] when both are empty.  It never
    throws. *)
Theorem C7_stringify_prefers_parts (this : SelectorBuilderClass.t) :
  (SelectorBuilderClass.selectors this <> [] ->
   fst (SelectorBuilderClass.stringify this)
   = Normal (Some (Array.join (map (fun item => value item)
                                 (SelectorBuilderClass.selectors this)))))
  /\ (SelectorBuilderClass.selectors this = [] ->
      SelectorBuilderClass.combineSelectors this <> [] ->
      fst (SelectorBuilderClass.stringify this)
      = Normal (Some (Array.join (SelectorBuilderClass.combineSelectors this))))
  /\ (SelectorBuilderClass.selectors this = [] ->
      SelectorBuilderClass.combineSelectors this = [] ->
      fst (SelectorBuilderClass.stringify this) = Normal None)
  /\ (exists s, fst (SelectorBuilderClass.stringify this) = Normal s).
Proof.
  rewrite stringify_run. cbn [fst].
  split; [|split; [|split]].
  - intros Hne. destruct (SelectorBuilderClass.selectors this); [contradiction|].
    reflexivity.
  - intros -> Hne. destruct (SelectorBuilderClass.combineSelectors this); [contradiction|].
    reflexivity.
  - intros -> ->. reflexivity.
  - eexists. reflexivity.
Qed.

Lemma C7_stringify_prefers_parts_witness :
  fst (SelectorBuilderClass.stringify
         (SelectorBuilderClass.mk [{| type := "id"; value := "#main" |}]
            [Some "div"; Some " + "; Some "p"] (Flags.mk false true false) enumeration))
  = Normal (Some "#main")
  /\ fst (SelectorBuilderClass.stringify
            (SelectorBuilderClass.mk [] [Some "div"; Some " + "; None]
               (Flags.mk false false false) enumeration))
     = Normal (Some "div + ")
  /\ fst (SelectorBuilderClass.stringify SelectorBuilderClass.constructor) = Normal None.
Proof.
  split; [|split].
  - apply (C7_stringify_prefers_parts
             (SelectorBuilderClass.mk [{| type := "id"; value := "#main" |}]
                [Some "div"; Some " + "; Some "p"] (Flags.mk false true false) enumeration)).
    discriminate.
  - apply (C7_stringify_prefers_parts
             (SelectorBuilderClass.mk [] [Some "div"; Some " + "; None]
                (Flags.mk false false false) enumeration));
      [reflexivity | discriminate].
  - apply (C7_stringify_prefers_parts SelectorBuilderClass.constructor); reflexivity.
Defined.

(** C8: [stringify] leaves both sequences of its receiver empty and the
    singleton flags as they were; so a second [stringify] returns [null],
    and a singleton category that was called before the render, or whose
    flag was set, still throws DuplicateSelectorPartError after it. *)
Theorem C8_stringify_resets_sequences_not_flags
    (this : SelectorBuilderClass.t) (k : Category.t) (v1 v2 : string) :
  SelectorBuilderClass.selectors (snd (SelectorBuilderClass.stringify this)) = []
  /\ SelectorBuilderClass.combineSelectors (snd (SelectorBuilderClass.stringify this)) = []
  /\ SelectorBuilderClass.flags (snd (SelectorBuilderClass.stringify this))
     = SelectorBuilderClass.flags this
  /\ SelectorBuilderClass.order (snd (SelectorBuilderClass.stringify this))
     = SelectorBuilderClass.order this
  /\ fst (SelectorBuilderClass.stringify (snd (SelectorBuilderClass.stringify this)))
     = Normal None
  /\ (already_added k this = true ->
      fst (method (k, v2) (snd (SelectorBuilderClass.stringify this)))
      = Throw DuplicateSelectorPartError)
  /\ (singleton k = true ->
      fst (method (k, v2)
             (snd (SelectorBuilderClass.stringify (snd (method (k, v1) this)))))
      = Throw DuplicateSelectorPartError).
Proof.
  repeat (split; [reflexivity|]).
  assert (Hflag : forall obj, already_added k obj = true ->
            fst (method (k, v2) (snd (SelectorBuilderClass.stringify obj)))
            = Throw DuplicateSelectorPartError).
  { intros obj Hobj. rewrite method_run. cbn [fst].
    rewrite (stringify_monotone obj k Hobj). reflexivity. }
  split; [apply Hflag|].
  intros Hk. apply Hflag, already_added_after, Hk.
Qed.

Lemma C8_stringify_resets_sequences_not_flags_witness :
  fst (method (Category.id, "other")
         (snd (SelectorBuilderClass.stringify
                 (snd (SelectorBuilderClass.id "main" SelectorBuilderClass.constructor)))))
  = Throw DuplicateSelectorPartError
  /\ fst (method (Category.id, "other")
            (snd (SelectorBuilderClass.stringify
                    (snd (method (Category.id, "again")
                            (snd (SelectorBuilderClass.id "main"
                                    SelectorBuilderClass.constructor)))))))
     = Throw DuplicateSelectorPartError.
Proof.
  destruct (C8_stringify_resets_sequences_not_flags
              (snd (SelectorBuilderClass.id "main" SelectorBuilderClass.constructor))
              Category.id "again" "other") as (_ & _ & _ & _ & _ & Hflag & Hcalled).
  split; [apply Hflag | apply Hcalled]; reflexivity.
Defined.

(** ** C9: the JSON round trip *)

(** C9: serializing [{ width: 10, height: 20 }] with [getJSON] and parsing
    the text with [fromJSON] under a prototype returns an object whose own
    fields are width 10 and height 20, the parsed structure itself, with the
    given prototype set on it; so every method of the prototype that no own
    field hides can be called on it and runs on those fields. *)
Theorem C9_rectangle_json_round_trip (proto : Prototype) :
  fromJSON proto (getJSON rectangle)
  = Some (Normal {| data := rectangle; prototypeOf := Some proto |})
  /\ (forall (name : string) (m : Method),
        assoc name proto = Some m -> name <> "width" -> name <> "height" ->
        call_method {| data := rectangle; prototypeOf := Some proto |} name
        = Some (m [("width", JSON.Number 10); ("height", JSON.Number 20)])).
Proof.
  split; [vm_compute; reflexivity|].
  intros name m Hm Hw Hh. unfold call_method, rectangle. cbn [data prototypeOf assoc].
  destruct (String.eqb_spec "width" name) as [E|_]; [congruence|].
  destruct (String.eqb_spec "height" name) as [E|_]; [congruence|].
  rewrite Hm. reflexivity.
Qed.

Lemma C9_rectangle_json_round_trip_witness :
  (exists obj, fromJSON Rectangle_prototype (getJSON rectangle) = Some (Normal obj)
               /\ call_method obj "getArea" = Some (Normal (JSON.Number 200))).
Proof.
  destruct (C9_rectangle_json_round_trip Rectangle_prototype) as [Hparse Hcall].
  exists {| data := rectangle; prototypeOf := Some Rectangle_prototype |}.
  split; [exact Hparse|].
  apply (Hcall "getArea" getArea); [reflexivity | discriminate | discriminate].
Defined.

(** * Further properties of the builder *)

(** ** The order check is a check of neighbours *)

Lemma nondecreasing_pairwise (l : list Z) :
  nondecreasing l = true <->
  forall (i j : nat) (a b : Z), (i < j)%nat -> l !! i = Some a -> l !! j = Some b -> a <= b.
Proof.
  induction l as [|a0 l IH].
  - split; [|reflexivity]. intros _ i j a b _ Hi. destruct i; discriminate Hi.
  - split.
    + intros H. apply nondecreasing_cons in H as [Hl Hhead].
      assert (Hall : forall j b, l !! j = Some b -> a0 <= b).
      { intros j b Hj. destruct l as [|b0 l']; [destruct j; discriminate Hj|].
        specialize (Hhead b0 eq_refl).
        destruct j as [|j]; [injection Hj as <-; exact Hhead|].
        pose proof (proj1 IH Hl 0%nat (S j) b0 b ltac:(lia) eq_refl Hj). lia. }
      intros i j a b Hlt Hi Hj. destruct j as [|j]; [lia|]. cbn in Hj.
      destruct i as [|i].
      * injection Hi as <-. apply (Hall j b Hj).
      * cbn in Hi. apply (proj1 IH Hl i j a b); [lia | assumption | assumption].
    + intros H.
      assert (Hl : nondecreasing l = true).
      { apply IH. intros i j a b Hlt Hi Hj. apply (H (S i) (S j) a b); [lia | exact Hi | exact Hj]. }
      destruct l as [|b0 l']; [reflexivity|].
      rewrite nondecreasing_two, Hl, andb_true_r. apply Z.leb_le.
      apply (H 0%nat 1%nat a0 b0); [lia | reflexivity | reflexivity].
Qed.

Lemma inverted_part_indices (this : SelectorBuilderClass.t) :
  ~ inverted (SelectorBuilderClass.selectors this) <-> nondecreasing (part_indices this) = true.
Proof.
  rewrite nondecreasing_pairwise. unfold part_indices, inverted. split.
  - intros Hno i j a b Hlt Hi Hj.
    rewrite list_lookup_fmap in Hi, Hj.
    destruct (SelectorBuilderClass.selectors this !! i) as [e|] eqn:Ei; [|discriminate Hi].
    destruct (SelectorBuilderClass.selectors this !! j) as [l|] eqn:Ej; [|discriminate Hj].
    cbn in Hi, Hj. injection Hi as <-. injection Hj as <-.
    destruct (Z_le_gt_dec (category_index (type e)) (category_index (type l))) as [|Hgt];
      [assumption|].
    exfalso. apply Hno. exists i, j, e, l. auto.
  - intros Hall (i & j & e & l & Hlt & Hi & Hj & Hgt).
    specialize (Hall i j (category_index (type e)) (category_index (type l)) Hlt).
    rewrite !list_lookup_fmap, Hi, Hj in Hall. specialize (Hall eq_refl eq_refl). lia.
Qed.

(** X1: [checkOrder] compares every part with every part before it; that is
    the same as comparing each part with its neighbour: the order is valid
    exactly when the category indices of the parts, in insertion order,
    never go down from one part to the next. *)
Theorem checkOrder_is_a_check_of_neighbours (this : SelectorBuilderClass.t) :
  constructed this ->
  SelectorBuilderClass.isValidOrder this = nondecreasing (part_indices this).
Proof.
  intros Hc.
  pose proof (isValidOrder_true this Hc) as Hv.
  pose proof (inverted_part_indices this) as Hn.
  destruct (SelectorBuilderClass.isValidOrder this), (nondecreasing (part_indices this));
    try reflexivity.
  - symmetry. apply Hn, Hv. reflexivity.
  - apply Hv, Hn. reflexivity.
Qed.

Lemma checkOrder_is_a_check_of_neighbours_witness :
  SelectorBuilderClass.isValidOrder attr_then_class = false
  /\ SelectorBuilderClass.isValidOrder
       (snd (SelectorBuilderClass.class "a" SelectorBuilderClass.constructor)) = true.
Proof.
  split.
  - rewrite (checkOrder_is_a_check_of_neighbours attr_then_class); reflexivity.
  - rewrite (checkOrder_is_a_check_of_neighbours
               (snd (SelectorBuilderClass.class "a" SelectorBuilderClass.constructor)));
      reflexivity.
Defined.

(** ** Which calls are rejected *)

Lemma inverted_snoc_iff (parts : list Selector) (p : Selector) :
  inverted (parts ++ [p]) <->
  inverted parts
  \/ exists e, e ∈ parts /\ category_index (type e) > category_index (type p).
Proof.
  split.
  - intros (i & j & earlier & later & Hlt & Hi & Hj & Hgt).
    apply lookup_snoc_Some in Hj as [[Hjlt Hj] | [Hjeq <-]].
    + left. exists i, j, earlier, later. rewrite lookup_app_l in Hi by lia. auto.
    + right. rewrite lookup_app_l in Hi by lia. exists earlier. split; [|exact Hgt].
      apply list_elem_of_lookup. eauto.
  - intros [H | (e & He & Hgt)]; [apply inverted_snoc; exact H|].
    apply list_elem_of_lookup in He as [i Hi].
    exists i, (length parts), e, p.
    split; [apply lookup_lt_Some in Hi; exact Hi|].
    split; [apply lookup_app_l_Some; exact Hi|].
    split; [apply list_lookup_middle; reflexivity | exact Hgt].
Qed.

(** X2: on a builder whose parts are in order, a call of element, id, class,
    attr or pseudoClass that gets past the duplicate guard is rejected with
    SelectorOrderError exactly when some part already there belongs to a
    later category; otherwise it returns normally. *)
Theorem rejected_iff_a_later_category_is_present
    (this : SelectorBuilderClass.t) (k : Category.t) (v : string) :
  constructed this ->
  ~ inverted (SelectorBuilderClass.selectors this) ->
  k <> Category.pseudoElement ->
  already_added k this = false ->
  (fst (method (k, v) this) = Throw SelectorOrderError
   <-> exists e, e ∈ SelectorBuilderClass.selectors this
                 /\ category_index (type e) > Category.index k)
  /\ (fst (method (k, v) this) = Normal tt
      <-> forall e, e ∈ SelectorBuilderClass.selectors this ->
                    category_index (type e) <= Category.index k).
Proof.
  intros Hc Hsorted Hk Hguard.
  rewrite method_run. cbn [fst]. rewrite Hguard.
  destruct (decide (k = Category.pseudoElement)); [contradiction|]. cbn [fst].
  pose proof (isValidOrder_false _ (constructed_appended (k, v) this Hc)) as Hv.
  cbn [appended SelectorBuilderClass.selectors] in Hv.
  rewrite inverted_snoc_iff in Hv. cbn [part type fst] in Hv.
  rewrite category_index_name in Hv.
  destruct (SelectorBuilderClass.isValidOrder (appended (k, v) this)).
  - split.
    + split; [discriminate|]. intros He.
      assert (true = false) as E by (apply Hv; right; exact He). discriminate E.
    + split; [|reflexivity]. intros _ e He.
      destruct (Z_le_gt_dec (category_index (type e)) (Category.index k)) as [|Hgt];
        [assumption|].
      assert (true = false) as E by (apply Hv; right; eauto). discriminate E.
  - destruct (proj1 Hv eq_refl) as [Hinv | He]; [contradiction|].
    split.
    + split; [intros _; exact He | reflexivity].
    + split; [discriminate|]. intros Hall.
      destruct He as (e & He & Hgt). specialize (Hall e He). lia.
Qed.

Lemma rejected_iff_a_later_category_is_present_witness :
  fst (method (Category.id, "main")
         (snd (SelectorBuilderClass.class "a" SelectorBuilderClass.constructor)))
  = Throw SelectorOrderError.
Proof.
  apply (rejected_iff_a_later_category_is_present
           (snd (SelectorBuilderClass.class "a" SelectorBuilderClass.constructor))
           Category.id "main").
  - reflexivity.
  - intros (i & j & e & l & Hlt & Hi & Hj & _).
    destruct j as [|j]; [lia|]. discriminate Hj.
  - discriminate.
  - reflexivity.
  - exists {| type := "class"; value := ".a" |}. split.
    + apply list_elem_of_singleton. reflexivity.
    + vm_compute. reflexivity.
Defined.

(** ** The chains that return are the valid orderings *)

Lemma method_normal (c : call) (this this' : SelectorBuilderClass.t) :
  method c this = (Normal tt, this') ->
  this' = appended c this /\ already_added (fst c) this = false.
Proof.
  rewrite method_run.
  destruct (already_added (fst c) this); [discriminate|].
  destruct (decide (fst c = Category.pseudoElement)).
  - intros [= <-]. auto.
  - destruct (SelectorBuilderClass.isValidOrder _); [|discriminate].
    intros [= <-]. auto.
Qed.

Lemma already_added_kept (k : Category.t) (c : call) (this : SelectorBuilderClass.t) :
  already_added k this = true -> already_added k (appended c this) = true.
Proof.
  destruct c as [k' v], this as [sels combs [fe fi fp] ord].
  destruct k, k'; cbn; congruence.
Qed.

Lemma already_added_raised (c : call) (this : SelectorBuilderClass.t) :
  singleton (fst c) = true -> already_added (fst c) (appended c this) = true.
Proof.
  destruct c as [k v], this as [sels combs [fe fi fp] ord].
  destruct k; cbn; congruence.
Qed.

(** A run of calls that returns normally fits its receiver. *)
Lemma methods_normal_fit (cs : list call) :
  forall this this' : SelectorBuilderClass.t,
    constructed this ->
    methods cs this = (Normal tt, this') ->
    (forall e c, e ∈ SelectorBuilderClass.selectors this -> head cs = Some c ->
                 category_index (type e) <= Category.index (fst c))
    /\ nondecreasing (map (fun c => Category.index (fst c)) cs) = true
    /\ (forall k, singleton k = true -> (occurrences k cs <= 1)%nat)
    /\ (forall k, already_added k this = true -> occurrences k cs = 0%nat).
Proof.
  induction cs as [|c cs IH]; intros this this' Hc Hrun.
  - repeat split; try reflexivity; try discriminate.
    intros k _. cbn. lia.
  - cbn [methods] in Hrun. unfold bind in Hrun.
    destruct (method c this) as [[[]|err] this1] eqn:Hm; [|discriminate Hrun].
    pose proof (method_normal c this this1 Hm) as [-> Hguard].
    destruct (IH _ _ (constructed_appended c this Hc) Hrun) as (Hhead & Hnd & Honce & Hflag).
    assert (Hbound : forall e, e ∈ SelectorBuilderClass.selectors this ->
                               category_index (type e) <= Category.index (fst c)).
    { intros e He. rewrite method_run, Hguard in Hm.
      destruct (decide (fst c = Category.pseudoElement)) as [E|_].
      - rewrite E. pose proof (indexOf_enumeration_range (type e)). cbn. lia.
      - destruct (SelectorBuilderClass.isValidOrder (appended c this)) eqn:Hv;
          [|discriminate Hm].
        apply (isValidOrder_true _ (constructed_appended c this Hc)) in Hv.
        destruct (Z_le_gt_dec (category_index (type e)) (Category.index (fst c)))
          as [|Hgt]; [assumption|].
        exfalso. apply Hv. cbn [appended SelectorBuilderClass.selectors].
        apply inverted_snoc_iff. right. exists e. split; [exact He|].
        cbn [part type]. rewrite category_index_name. exact Hgt. }
    split; [|split; [|split]].
    + intros e c' He [= <-]. apply Hbound, He.
    + cbn [map]. destruct cs as [|c' cs]; [reflexivity|].
      cbn [map] in Hnd |- *. rewrite nondecreasing_two, Hnd, andb_true_r.
      apply Z.leb_le.
      specialize (Hhead (part c) c').
      cbn [part type] in Hhead. rewrite category_index_name in Hhead.
      apply Hhead; [|reflexivity].
      cbn [appended SelectorBuilderClass.selectors]. apply elem_of_app. right.
      apply list_elem_of_singleton. reflexivity.
    + intros k Hk. rewrite occurrences_cons.
      destruct (decide (fst c = k)) as [<-|Hne]; [|apply (Honce k Hk)].
      rewrite (Hflag (fst c) (already_added_raised c this Hk)). lia.
    + intros k Hk. rewrite occurrences_cons.
      destruct (decide (fst c = k)) as [<-|Hne]; [congruence|].
      apply (Hflag k), already_added_kept, Hk.
Qed.

Lemma methods_outcome (cs : list call) :
  forall this : SelectorBuilderClass.t,
    fst (methods cs this) = Normal tt
    \/ fst (methods cs this) = Throw DuplicateSelectorPartError
    \/ fst (methods cs this) = Throw SelectorOrderError.
Proof.
  induction cs as [|c cs IH]; intros this; [left; reflexivity|].
  cbn [methods]. unfold bind. rewrite method_run.
  destruct (already_added (fst c) this); [right; left; reflexivity|].
  destruct (decide (fst c = Category.pseudoElement)); [apply IH|].
  destruct (SelectorBuilderClass.isValidOrder _); [apply IH | right; right; reflexivity].
Qed.

(** X3: a chain of category calls started at the facade and ended by
    [stringify] returns normally exactly when its calls form a valid
    ordering; otherwise it throws DuplicateSelectorPartError or
    SelectorOrderError, and nothing else. *)
Theorem chain_returns_iff_valid_ordering
    (h : list SelectorBuilderClass.t) (c : call) (cs : list call) :
  ((exists s, fst (chain c cs h) = Normal s) <-> valid_ordering (c :: cs) = true)
  /\ (valid_ordering (c :: cs) = false ->
      fst (chain c cs h) = Throw DuplicateSelectorPartError
      \/ fst (chain c cs h) = Throw SelectorOrderError).
Proof.
  assert (Hiff : (exists s, fst (chain c cs h) = Normal s)
                 <-> valid_ordering (c :: cs) = true).
  { split.
    - intros [s Hs]. rewrite chain_run in Hs. cbn [fst] in Hs. unfold bind in Hs.
      destruct (methods (c :: cs) SelectorBuilderClass.constructor) as [[[]|err] obj] eqn:Hm;
        [|discriminate Hs].
      destruct (methods_normal_fit _ _ _ eq_refl Hm) as (_ & Hnd & Honce & _).
      unfold valid_ordering. rewrite !andb_true_iff, !Nat.leb_le.
      repeat split; [exact Hnd | apply Honce | apply Honce | apply Honce]; reflexivity.
    - intros Hv. rewrite chain_run. cbn [fst]. unfold bind.
      rewrite (valid_ordering_fits _ Hv), stringify_rendered. eexists. reflexivity. }
  split; [exact Hiff|].
  intros Hv. rewrite chain_run. cbn [fst]. unfold bind.
  destruct (methods_outcome (c :: cs) SelectorBuilderClass.constructor) as [Hn | [Hd | Ho]].
  - exfalso.
    assert (exists s, fst (chain c cs h) = Normal s) as Hex.
    { rewrite chain_run. cbn [fst]. unfold bind.
      destruct (methods (c :: cs) SelectorBuilderClass.constructor) as [[[]|err] obj];
        [|discriminate Hn].
      rewrite stringify_rendered. eexists. reflexivity. }
    apply Hiff in Hex. congruence.
  - destruct (methods (c :: cs) SelectorBuilderClass.constructor) as [[[]|err] obj];
      [discriminate Hd|]. left. cbn in Hd |- *. congruence.
  - destruct (methods (c :: cs) SelectorBuilderClass.constructor) as [[[]|err] obj];
      [discriminate Ho|]. right. cbn in Ho |- *. congruence.
Qed.

Lemma chain_returns_iff_valid_ordering_witness :
  fst (chain (Category.class, "a") [(Category.id, "main")] [])
  = Throw DuplicateSelectorPartError
  \/ fst (chain (Category.class, "a") [(Category.id, "main")] [])
     = Throw SelectorOrderError.
Proof.
  apply (chain_returns_iff_valid_ordering [] (Category.class, "a") [(Category.id, "main")]).
  reflexivity.
Defined.

(** ** What every builder of a reachable store keeps *)

Lemma well_formed_constructor : well_formed SelectorBuilderClass.constructor.
Proof.
  split; [reflexivity|]. exists []. split; [reflexivity|].
  intros k _. cbn. split; lia.
Qed.

Lemma well_formed_appended (c : call) (this : SelectorBuilderClass.t) :
  well_formed this -> already_added (fst c) this = false -> well_formed (appended c this).
Proof.
  intros [Hc (cs & Hsel & Hcs)] Hguard. split; [exact Hc|].
  exists (cs ++ [c]). split.
  - cbn [appended SelectorBuilderClass.selectors]. rewrite Hsel, map_app. reflexivity.
  - intros k Hk. destruct (Hcs k Hk) as [Hle Hflag].
    rewrite occurrences_app, occurrences_cons.
    change (occurrences k []) with 0%nat.
    destruct (decide (fst c = k)) as [<-|Hne].
    + assert (occurrences (fst c) cs = 0%nat) as ->.
      { destruct (occurrences (fst c) cs) as [|n] eqn:E; [reflexivity|].
        rewrite Hflag in Hguard by lia. discriminate Hguard. }
      split; [lia|]. intros _. apply already_added_raised, Hk.
    + split; [lia|]. intros Hone. apply already_added_kept, Hflag. lia.
Qed.

Lemma method_well_formed (c : call) (this : SelectorBuilderClass.t) :
  well_formed this -> well_formed (snd (method c this)).
Proof.
  intros Hwf. rewrite method_run.
  destruct (already_added (fst c) this) eqn:Hguard; [exact Hwf|].
  destruct (decide (fst c = Category.pseudoElement)); cbn [snd];
    apply well_formed_appended; assumption.
Qed.

Lemma stringify_well_formed (this : SelectorBuilderClass.t) :
  well_formed this -> well_formed (snd (SelectorBuilderClass.stringify this)).
Proof.
  intros [Hc _]. split; [exact Hc|]. exists []. split; [reflexivity|].
  intros k _. cbn. split; lia.
Qed.

Lemma push_combineSelectors_well_formed (v : option string) (this : SelectorBuilderClass.t) :
  well_formed this ->
  well_formed (snd (SelectorBuilderClass.push_combineSelectors v this)).
Proof.
  intros [Hc (cs & Hsel & Hcs)]. split; [exact Hc|]. exists cs. split; [exact Hsel|].
  intros k Hk. destruct (Hcs k Hk) as [Hle Hflag]. split; [exact Hle|].
  intros Hone. specialize (Hflag Hone). destruct k; exact Hflag.
Qed.

Lemma invoke_well_formed {A} (this : SelectorBuilderClass.ref)
    (m : M SelectorBuilderClass.t A) (h : list SelectorBuilderClass.t) :
  (forall obj, well_formed obj -> well_formed (snd (m obj))) ->
  Forall well_formed h -> Forall well_formed (snd (SelectorBuilderClass.invoke this m h)).
Proof.
  intros Hm Hh. destruct (h !! this) as [obj|] eqn:Hobj.
  - rewrite (invoke_run _ _ _ _ Hobj). cbn [snd].
    apply Forall_insert; [exact Hh|]. apply Hm.
    apply (Forall_lookup_1 _ _ _ _ Hh Hobj).
  - rewrite (invoke_dangling _ _ _ Hobj). exact Hh.
Qed.

Lemma bind_well_formed {A B} (m : M (list SelectorBuilderClass.t) A)
    (f : A -> M (list SelectorBuilderClass.t) B) (h : list SelectorBuilderClass.t) :
  (forall h, Forall well_formed h -> Forall well_formed (snd (m h))) ->
  (forall a h, Forall well_formed h -> Forall well_formed (snd (f a h))) ->
  Forall well_formed h -> Forall well_formed (snd (bind m f h)).
Proof.
  intros Hm Hf Hh. unfold bind. specialize (Hm h Hh).
  destruct (m h) as [[a|e] h']; cbn [snd] in Hm |- *; [apply Hf|]; exact Hm.
Qed.

Lemma new_well_formed (h : list SelectorBuilderClass.t) :
  Forall well_formed h -> Forall well_formed (snd (SelectorBuilderClass.new h)).
Proof.
  intros Hh. cbn. apply Forall_app. split; [exact Hh|].
  constructor; [exact well_formed_constructor | constructor].
Qed.

Lemma combine_well_formed (this s1 : SelectorBuilderClass.ref) (c : string)
    (s2 : SelectorBuilderClass.ref) (h : list SelectorBuilderClass.t) :
  Forall well_formed h ->
  Forall well_formed (snd (SelectorBuilderClass.combine this s1 c s2 h)).
Proof.
  assert (Hpush : forall s h, Forall well_formed h ->
            Forall well_formed (snd (SelectorBuilderClass.push_stringified this s h))).
  { intros s h0. unfold SelectorBuilderClass.push_stringified.
    apply bind_well_formed.
    - intros h1. apply invoke_well_formed. intros obj Hobj. exact Hobj.
    - intros _ h1. apply bind_well_formed.
      + intros h2. apply invoke_well_formed, stringify_well_formed.
      + intros v h2. destruct (decide (s = this)); [intros Hh; exact Hh|].
        apply invoke_well_formed, push_combineSelectors_well_formed. }
  unfold SelectorBuilderClass.combine. revert h.
  intros h. apply bind_well_formed; [intros h1; apply Hpush|]. intros _ h1.
  apply bind_well_formed;
    [intros h2; apply invoke_well_formed, push_combineSelectors_well_formed|].
  intros _ h2. apply bind_well_formed; [intros h3; apply Hpush|].
  intros _ h3 Hh. exact Hh.
Qed.

Lemma perform_well_formed (a : action) (h : list SelectorBuilderClass.t) :
  Forall well_formed h -> Forall well_formed (perform a h).
Proof.
  intros Hh. destruct a; cbn [perform].
  - apply invoke_well_formed; [apply method_well_formed | exact Hh].
  - apply invoke_well_formed; [apply stringify_well_formed | exact Hh].
  - apply combine_well_formed, Hh.
  - rewrite facade_run. cbn [snd]. apply Forall_app. split; [exact Hh|].
    constructor; [|constructor].
    apply method_well_formed, well_formed_constructor.
  - unfold cssSelectorBuilder.combine.
    apply bind_well_formed; [apply new_well_formed | | exact Hh].
    intros this h1. apply combine_well_formed.
Qed.

Lemma run_well_formed (script : list action) :
  forall h, Forall well_formed h -> Forall well_formed (run script h).
Proof.
  induction script as [|a script IH]; intros h Hh; [exact Hh|].
  cbn [run fold_left]. apply IH, perform_well_formed, Hh.
Qed.

(** X4: whatever a caller does, starting from no builders, with facade calls,
    method calls, [stringify] and [combine], catching what is thrown: every
    builder of the store keeps the [order] field of the constructor, its
    parts are those of a run of category calls in which element, id and
    pseudoElement occur at most once each, and the flag of each of the three
    that has a part is set.  So when it has parts it renders to the
    fragments of such a run: no rendered selector has two elements, two ids
    or two pseudo-elements. *)
Theorem reachable_builders_are_well_formed
    (script : list action) (r : SelectorBuilderClass.ref) (obj : SelectorBuilderClass.t) :
  run script [] !! r = Some obj ->
  well_formed obj
  /\ (SelectorBuilderClass.selectors obj <> [] ->
      exists cs : list call,
        fst (SelectorBuilderClass.stringify obj) = Normal (Some (concat_fragments cs))
        /\ forall k, singleton k = true -> (occurrences k cs <= 1)%nat).
Proof.
  intros Hr.
  assert (Hwf : well_formed obj).
  { apply (Forall_lookup_1 _ _ _ _ (run_well_formed script [] (Forall_nil_2 _)) Hr). }
  split; [exact Hwf|].
  intros Hne. destruct Hwf as [_ (cs & Hsel & Hcs)]. exists cs. split.
  - rewrite stringify_rendered. cbn [fst]. rewrite (rendered_parts obj Hne), Hsel, join_parts.
    reflexivity.
  - intros k Hk. apply (Hcs k Hk).
Qed.

Lemma reachable_builders_are_well_formed_witness :
  well_formed (SelectorBuilderClass.mk
                 [{| type := "class"; value := ".a" |}; {| type := "element"; value := "div" |}]
                 [] (Flags.mk true false false) enumeration).
Proof.
  apply (reachable_builders_are_well_formed
           [Facade (Category.class, "a"); Invoke 0%nat (Category.element, "div");
            Invoke 0%nat (Category.element, "p")] 0%nat).
  reflexivity.
Defined.

(** ** More on combine *)

Lemma rendered_combination (s1 s2 : option string) (p : string) :
  rendered (SelectorBuilderClass.set_combineSelectors [s1; Some p; s2]
              SelectorBuilderClass.constructor)
  = Some (text s1 +:+ p +:+ text s2).
Proof.
  unfold rendered. rewrite stringify_run. cbn [fst].
  cbn -[String.append]. unfold Array.join, text. cbn [fold_right].
  rewrite append_empty_r. reflexivity.
Qed.

(** What [combine] at the facade returns and leaves, for any two builders of
    the store. *)
Lemma facade_combine_result (h : list SelectorBuilderClass.t)
    (left right : SelectorBuilderClass.ref) (c : string) (bl br : SelectorBuilderClass.t) :
  h !! left = Some bl -> h !! right = Some br ->
  fst (cssSelectorBuilder.combine left c right h) = Normal (length h)
  /\ snd (cssSelectorBuilder.combine left c right h) !! length h
     = Some (SelectorBuilderClass.set_combineSelectors
               [rendered bl; Some (padded c);
                if decide (left = right) then None else rendered br]
               SelectorBuilderClass.constructor)
  /\ (forall r obj, r <> left -> r <> right -> h !! r = Some obj ->
                    snd (cssSelectorBuilder.combine left c right h) !! r = Some obj).
Proof.
  intros Hleft Hright.
  rewrite (facade_combine_run h left right c bl br Hleft Hright). cbn [fst snd].
  set (br' := if decide (left = right) then cleared bl else br).
  set (h2 := <[right := cleared br']> (<[left := cleared bl]> h)).
  assert (Hlen : length h = length h2) by (subst h2; rewrite !length_insert; reflexivity).
  split; [reflexivity|]. split.
  - rewrite Hlen, lookup_new. do 2 f_equal.
    subst br'. destruct (decide (left = right)); reflexivity.
  - intros r obj Hrl Hrr Hobj. apply lookup_app_l_Some. subst h2.
    rewrite !list_lookup_insert_ne by congruence. exact Hobj.
Qed.

Lemma facade_combine_rendering (h : list SelectorBuilderClass.t)
    (left right : SelectorBuilderClass.ref) (c : string) (bl br : SelectorBuilderClass.t) :
  h !! left = Some bl -> h !! right = Some br ->
  fst (SelectorBuilderClass.invoke (length h) SelectorBuilderClass.stringify
         (snd (cssSelectorBuilder.combine left c right h)))
  = Normal (Some (text (rendered bl) +:+ padded c
                  +:+ text (if decide (left = right) then None else rendered br))).
Proof.
  intros Hleft Hright.
  destruct (facade_combine_result h left right c bl br Hleft Hright) as (_ & Hnew & _).
  rewrite (invoke_run _ _ _ _ Hnew), stringify_rendered. cbn [fst].
  rewrite rendered_combination. reflexivity.
Qed.

(** X5: [combine] at the facade accepts any two builders: an operand that
    renders to [null] (an empty or already rendered builder) contributes the
    empty string, and when the same builder is passed twice it is rendered
    once, as the left operand, and the right side is empty. *)
Theorem combine_renders_null_operands_as_empty
    (h : list SelectorBuilderClass.t) (left right : SelectorBuilderClass.ref)
    (c : string) (bl br : SelectorBuilderClass.t) :
  h !! left = Some bl -> h !! right = Some br ->
  fst (cssSelectorBuilder.combine left c right h) = Normal (length h)
  /\ fst (SelectorBuilderClass.invoke (length h) SelectorBuilderClass.stringify
            (snd (cssSelectorBuilder.combine left c right h)))
     = Normal (Some (text (rendered bl) +:+ " " +:+ c +:+ " "
                     +:+ text (if decide (left = right) then None else rendered br)))
  /\ (left = right ->
      fst (SelectorBuilderClass.invoke (length h) SelectorBuilderClass.stringify
             (snd (cssSelectorBuilder.combine left c right h)))
      = Normal (Some (text (rendered bl) +:+ " " +:+ c +:+ " "))).
Proof.
  intros Hleft Hright.
  pose proof (facade_combine_rendering h left right c bl br Hleft Hright) as Hrender.
  unfold padded in Hrender. rewrite !append_assoc in Hrender.
  split; [apply (facade_combine_result h left right c bl br Hleft Hright)|].
  split; [exact Hrender|].
  intros E. rewrite Hrender. destruct (decide (left = right)); [|contradiction].
  reflexivity.
Qed.

Lemma combine_renders_null_operands_as_empty_witness :
  fst (SelectorBuilderClass.invoke 2%nat SelectorBuilderClass.stringify
         (snd (cssSelectorBuilder.combine 0%nat "+" 0%nat div_and_table)))
  = Normal (Some "div + ").
Proof.
  destruct (combine_renders_null_operands_as_empty div_and_table 0%nat 0%nat "+"
              (SelectorBuilderClass.mk [{| type := "element"; value := "div" |}] []
                 (Flags.mk true false false) enumeration)
              (SelectorBuilderClass.mk [{| type := "element"; value := "div" |}] []
                 (Flags.mk true false false) enumeration)
              eq_refl eq_refl) as (_ & _ & H).
  apply H. reflexivity.
Defined.

Lemma bind_normal {S A B} (m : M S A) (k : A -> M S B) (s : S) (a : A) :
  fst (m s) = Normal a -> bind m k s = k a (snd (m s)).
Proof. unfold bind. destruct (m s) as [[a'|e] s']; cbn; congruence. Qed.

(** X6: nested [combine] composes by concatenation, and the two ways of nesting
    three builders render to the same text: the rendered operands in order,
    with each combinator between two spaces. *)
Theorem nested_combine_is_associative
    (h : list SelectorBuilderClass.t) (a b d : SelectorBuilderClass.ref)
    (c1 c2 : string) (ba bb bd : SelectorBuilderClass.t) (la lb ld : string) :
  h !! a = Some ba -> h !! b = Some bb -> h !! d = Some bd ->
  a <> b -> a <> d -> b <> d ->
  rendered ba = Some la -> rendered bb = Some lb -> rendered bd = Some ld ->
  fst ((right <- cssSelectorBuilder.combine b c2 d ;;
        all <- cssSelectorBuilder.combine a c1 right ;;
        SelectorBuilderClass.invoke all SelectorBuilderClass.stringify)%js h)
  = Normal (Some (la +:+ " " +:+ c1 +:+ " " +:+ lb +:+ " " +:+ c2 +:+ " " +:+ ld))
  /\ fst ((left <- cssSelectorBuilder.combine a c1 b ;;
           all <- cssSelectorBuilder.combine left c2 d ;;
           SelectorBuilderClass.invoke all SelectorBuilderClass.stringify)%js h)
     = Normal (Some (la +:+ " " +:+ c1 +:+ " " +:+ lb +:+ " " +:+ c2 +:+ " " +:+ ld)).
Proof.
  intros Ha Hb Hd Hab Had Hbd Hla Hlb Hld.
  pose proof (lookup_lt_Some _ _ _ Ha) as La.
  pose proof (lookup_lt_Some _ _ _ Hd) as Ld.
  split.
  - destruct (facade_combine_result h b d c2 bb bd Hb Hd) as (Hret & Hnew & Hframe).
    rewrite (bind_normal _ _ _ _ Hret).
    set (h1 := snd (cssSelectorBuilder.combine b c2 d h)) in *.
    specialize (Hframe a ba Hab Had Ha).
    destruct (facade_combine_result h1 a (length h) c1 _ _ Hframe Hnew) as (Hret1 & _ & _).
    rewrite (bind_normal _ _ _ _ Hret1).
    rewrite (facade_combine_rendering h1 a (length h) c1 _ _ Hframe Hnew).
    destruct (decide (a = length h)); [lia|].
    destruct (decide (b = d)); [contradiction|].
    rewrite rendered_combination, Hla, Hlb, Hld. cbn [fst]. do 2 f_equal.
    unfold text, padded. cbn [Array.to_joined Array.Joinable_nullable].
    rewrite !append_assoc. reflexivity.
  - destruct (facade_combine_result h a b c1 ba bb Ha Hb) as (Hret & Hnew & Hframe).
    rewrite (bind_normal _ _ _ _ Hret).
    set (h1 := snd (cssSelectorBuilder.combine a c1 b h)) in *.
    specialize (Hframe d bd ltac:(congruence) ltac:(congruence) Hd).
    destruct (facade_combine_result h1 (length h) d c2 _ _ Hnew Hframe) as (Hret1 & _ & _).
    rewrite (bind_normal _ _ _ _ Hret1).
    rewrite (facade_combine_rendering h1 (length h) d c2 _ _ Hnew Hframe).
    destruct (decide (length h = d)); [lia|].
    destruct (decide (a = b)); [contradiction|].
    rewrite rendered_combination, Hla, Hlb, Hld. cbn [fst]. do 2 f_equal.
    unfold text, padded. cbn [Array.to_joined Array.Joinable_nullable].
    rewrite !append_assoc. reflexivity.
Qed.

Lemma nested_combine_is_associative_witness :
  fst ((right <- cssSelectorBuilder.combine 1%nat "~" 2%nat ;;
        all <- cssSelectorBuilder.combine 0%nat "+" right ;;
        SelectorBuilderClass.invoke all SelectorBuilderClass.stringify)%js three_builders)
  = Normal (Some "div + table ~ .x")
  /\ fst ((left <- cssSelectorBuilder.combine 0%nat "+" 1%nat ;;
           all <- cssSelectorBuilder.combine left "~" 2%nat ;;
           SelectorBuilderClass.invoke all SelectorBuilderClass.stringify)%js three_builders)
     = Normal (Some "div + table ~ .x").
Proof.
  apply (nested_combine_is_associative three_builders 0%nat 1%nat 2%nat "+" "~"
           (SelectorBuilderClass.mk [{| type := "element"; value := "div" |}] []
              (Flags.mk true false false) enumeration)
           (SelectorBuilderClass.mk [{| type := "element"; value := "table" |}] []
              (Flags.mk true false false) enumeration)
           (SelectorBuilderClass.mk [{| type := "class"; value := ".x" |}] []
              (Flags.mk false false false) enumeration)
           "div" "table" ".x");
    try reflexivity; lia.
Defined.

Lemma join_app_nullable (l1 l2 : list (option string)) :
  Array.join (l1 ++ l2) = Array.join l1 +:+ Array.join l2.
Proof.
  unfold Array.join. induction l1 as [|s l1 IH]; [reflexivity|].
  cbn [app fold_right]. rewrite IH, append_assoc. reflexivity.
Qed.

(** X7: the method [combine], called on a builder that is neither operand, adds
    its three entries after whatever the combination sequence of the
    receiver holds and leaves the parts and flags of the receiver alone.  So
    a second [combine] on the same receiver renders after the first, and a
    receiver that has parts still renders to its parts alone, the
    combination being dropped by that [stringify]. *)
Theorem combine_appends_to_the_receiver
    (h : list SelectorBuilderClass.t) (this left right : SelectorBuilderClass.ref)
    (c : string) (bt bl br : SelectorBuilderClass.t) :
  h !! this = Some bt -> h !! left = Some bl -> h !! right = Some br ->
  this <> left -> this <> right ->
  let entries := [rendered bl; Some (" " +:+ c +:+ " ");
                  if decide (left = right) then None else rendered br] in
  let h' := snd (SelectorBuilderClass.combine this left c right h) in
  fst (SelectorBuilderClass.combine this left c right h) = Normal this
  /\ h' !! this
     = Some (SelectorBuilderClass.set_combineSelectors
               (SelectorBuilderClass.combineSelectors bt ++ entries) bt)
  /\ (SelectorBuilderClass.selectors bt = [] ->
      fst (SelectorBuilderClass.invoke this SelectorBuilderClass.stringify h')
      = Normal (Some (Array.join (SelectorBuilderClass.combineSelectors bt)
                      +:+ Array.join entries)))
  /\ (SelectorBuilderClass.selectors bt <> [] ->
      fst (SelectorBuilderClass.invoke this SelectorBuilderClass.stringify h')
      = Normal (Some (Array.join (map (fun item => value item)
                                    (SelectorBuilderClass.selectors bt))))
      /\ SelectorBuilderClass.combineSelectors
           <$> snd (SelectorBuilderClass.invoke this SelectorBuilderClass.stringify h') !! this
         = Some []).
Proof.
  intros Hthis Hleft Hright Htl Htr entries h'.
  pose proof (lookup_lt_Some _ _ _ Hthis) as Lthis.
  assert (Hrun := combine_run h this left right c bt bl br Hthis Hleft Hright Htl Htr).
  cbv zeta in Hrun.
  assert (Hentries : [rendered bl; Some (padded c);
                      rendered (if decide (left = right) then cleared bl else br)] = entries).
  { subst entries. unfold padded. destruct (decide (left = right)); reflexivity. }
  rewrite Hentries in Hrun.
  assert (Hnew : h' !! this
                 = Some (SelectorBuilderClass.set_combineSelectors
                           (SelectorBuilderClass.combineSelectors bt ++ entries) bt)).
  { subst h'. rewrite Hrun. cbn [snd]. apply list_lookup_insert_eq.
    rewrite !length_insert. exact Lthis. }
  split; [rewrite Hrun; reflexivity|].
  split; [exact Hnew|].
  split.
  - intros Hempty. rewrite (invoke_run _ _ _ _ Hnew), stringify_run. cbn [fst].
    cbn [SelectorBuilderClass.set_combineSelectors SelectorBuilderClass.selectors
         SelectorBuilderClass.combineSelectors].
    rewrite Hempty. cbn [length]. rewrite length_app. subst entries. cbn [length].
    replace (negb (Z.of_nat 0 =? 0)) with false by reflexivity.
    replace (negb (Z.of_nat (length (SelectorBuilderClass.combineSelectors bt) + 3) =? 0))
      with true by (symmetry; apply negb_true_iff, Z.eqb_neq; lia).
    rewrite join_app_nullable. reflexivity.
  - intros Hparts. rewrite (invoke_run _ _ _ _ Hnew). cbn [fst snd]. split.
    + rewrite stringify_rendered. cbn [fst]. f_equal.
      apply (rendered_parts (SelectorBuilderClass.set_combineSelectors
                               (SelectorBuilderClass.combineSelectors bt ++ entries) bt)).
      exact Hparts.
    + rewrite list_lookup_insert_eq by (apply lookup_lt_Some in Hnew; exact Hnew).
      reflexivity.
Qed.

Lemma combine_appends_to_the_receiver_witness :
  fst (SelectorBuilderClass.invoke 2%nat SelectorBuilderClass.stringify
         (snd (SelectorBuilderClass.combine 2%nat 0%nat "+" 1%nat three_builders)))
  = Normal (Some ".x").
Proof.
  destruct (combine_appends_to_the_receiver three_builders 2%nat 0%nat 1%nat "+"
              (SelectorBuilderClass.mk [{| type := "class"; value := ".x" |}] []
                 (Flags.mk false false false) enumeration)
              (SelectorBuilderClass.mk [{| type := "element"; value := "div" |}] []
                 (Flags.mk true false false) enumeration)
              (SelectorBuilderClass.mk [{| type := "element"; value := "table" |}] []
                 (Flags.mk true false false) enumeration)
              eq_refl eq_refl eq_refl ltac:(lia) ltac:(lia)) as (_ & _ & _ & Hparts).
  apply Hparts. discriminate.
Defined.

(** ** Reusing a rendered builder *)

(** X8: a builder that has been rendered can be used again: a run of category
    calls in a valid ordering that avoids the singleton categories the
    builder already had returns normally on it, and the next [stringify]
    returns the fragments of that run alone. *)
Theorem rendered_builder_can_be_reused
    (this : SelectorBuilderClass.t) (c : call) (cs : list call) :
  constructed this ->
  valid_ordering (c :: cs) = true ->
  (forall k, already_added k this = true -> occurrences k (c :: cs) = 0%nat) ->
  fst ((SelectorBuilderClass.stringify ;; methods (c :: cs) ;;
        SelectorBuilderClass.stringify)%js this)
  = Normal (Some (concat_fragments (c :: cs))).
Proof.
  intros Hc Hvalid Hflags.
  unfold valid_ordering in Hvalid. rewrite !andb_true_iff, !Nat.leb_le in Hvalid.
  destruct Hvalid as [[[Hnd He] Hi] Hp].
  unfold bind at 1. rewrite stringify_rendered.
  assert (Hrun : methods (c :: cs) (cleared this)
                 = (Normal tt, appended_all (c :: cs) (cleared this))).
  { apply methods_fit.
    - exact Hc.
    - exact not_inverted_nil.
    - intros e c' He'. apply elem_of_nil in He'. contradiction.
    - exact Hnd.
    - intros [] Hk; try discriminate Hk; assumption.
    - intros k Hk. apply Hflags. destruct k; exact Hk. }
  unfold bind. rewrite Hrun, stringify_run. cbn [fst].
  rewrite selectors_appended_all. cbn [cleared app].
  change (SelectorBuilderClass.selectors (cleared this)) with (@nil Selector).
  cbn [app]. rewrite join_parts. reflexivity.
Qed.

Lemma rendered_builder_can_be_reused_witness :
  fst ((SelectorBuilderClass.stringify ;;
        methods [(Category.id, "main"); (Category.class, "b")] ;;
        SelectorBuilderClass.stringify)%js
         (snd (methods [(Category.element, "div"); (Category.class, "a")]
                 SelectorBuilderClass.constructor)))
  = Normal (Some "#main.b").
Proof.
  apply (rendered_builder_can_be_reused
           (snd (methods [(Category.element, "div"); (Category.class, "a")]
                   SelectorBuilderClass.constructor))
           (Category.id, "main") [(Category.class, "b")]).
  - reflexivity.
  - reflexivity.
  - intros [] Hk; try discriminate Hk; reflexivity.
Defined.

(** ** What a call leaves alone *)

Lemma invoke_frame {A} (this r : SelectorBuilderClass.ref) (m : M SelectorBuilderClass.t A)
    (h : list SelectorBuilderClass.t) :
  r <> this -> snd (SelectorBuilderClass.invoke this m h) !! r = h !! r.
Proof.
  intros Hne. unfold SelectorBuilderClass.invoke.
  destruct (h !! this) as [obj|]; [|reflexivity].
  destruct (m obj) as [res obj']. cbn [snd].
  apply list_lookup_insert_ne. congruence.
Qed.

Lemma bind_frame {A B} (r : SelectorBuilderClass.ref)
    (m : M (list SelectorBuilderClass.t) A) (k : A -> M (list SelectorBuilderClass.t) B)
    (h : list SelectorBuilderClass.t) :
  (forall h, snd (m h) !! r = h !! r) ->
  (forall a h, snd (k a h) !! r = h !! r) ->
  snd (bind m k h) !! r = h !! r.
Proof.
  intros Hm Hk. unfold bind. specialize (Hm h).
  destruct (m h) as [[a|e] h']; cbn [snd] in Hm |- *; [rewrite Hk|]; exact Hm.
Qed.

Lemma combine_frame (this left right r : SelectorBuilderClass.ref) (c : string)
    (h : list SelectorBuilderClass.t) :
  r <> this -> r <> left -> r <> right ->
  snd (SelectorBuilderClass.combine this left c right h) !! r = h !! r.
Proof.
  intros Hthis Hleft Hright.
  assert (Hpush : forall s h, r <> s ->
            snd (SelectorBuilderClass.push_stringified this s h) !! r = h !! r).
  { intros s h0 Hs. unfold SelectorBuilderClass.push_stringified.
    apply bind_frame; [intros h1; apply invoke_frame, Hthis|]. intros _ h1.
    apply bind_frame; [intros h2; apply invoke_frame, Hs|]. intros v h2.
    destruct (decide (s = this)); [reflexivity | apply invoke_frame, Hthis]. }
  unfold SelectorBuilderClass.combine.
  apply bind_frame; [intros h1; apply Hpush, Hleft|]. intros _ h1.
  apply bind_frame; [intros h2; apply invoke_frame, Hthis|]. intros _ h2.
  apply bind_frame; [intros h3; apply Hpush, Hright|]. intros _ h3. reflexivity.
Qed.

(** X9: builders do not share state.  A category call at the facade leaves every
    builder of the store as it was and works on a new one, whether it
    returns or throws; [combine] at the facade changes no builder but its
    two operands; and the method [combine] changes no builder but its
    receiver and its two operands. *)
Theorem calls_leave_the_other_builders_alone
    (h : list SelectorBuilderClass.t) (r : SelectorBuilderClass.ref)
    (obj : SelectorBuilderClass.t) :
  h !! r = Some obj ->
  (forall c : call, snd (facade c h) !! r = Some obj)
  /\ (forall left right c, r <> left -> r <> right ->
        snd (cssSelectorBuilder.combine left c right h) !! r = Some obj)
  /\ (forall this left right c, r <> this -> r <> left -> r <> right ->
        snd (SelectorBuilderClass.combine this left c right h) !! r = Some obj).
Proof.
  intros Hr. pose proof (lookup_lt_Some _ _ _ Hr) as Lr.
  split; [|split].
  - intros c. rewrite facade_run. cbn [snd]. apply lookup_app_l_Some, Hr.
  - intros left right c Hleft Hright. unfold cssSelectorBuilder.combine, bind.
    cbn [SelectorBuilderClass.new].
    rewrite combine_frame by (try assumption; lia).
    apply lookup_app_l_Some, Hr.
  - intros this left right c Hthis Hleft Hright.
    rewrite combine_frame by assumption. exact Hr.
Qed.

Lemma calls_leave_the_other_builders_alone_witness :
  snd (cssSelectorBuilder.combine 0%nat "+" 1%nat three_builders) !! 2%nat
  = Some (SelectorBuilderClass.mk [{| type := "class"; value := ".x" |}] []
            (Flags.mk false false false) enumeration).
Proof.
  destruct (calls_leave_the_other_builders_alone three_builders 2%nat
              (SelectorBuilderClass.mk [{| type := "class"; value := ".x" |}] []
                 (Flags.mk false false false) enumeration) eq_refl) as (_ & H & _).
  apply H; lia.
Defined.

(** * The JSON round trip *)

(** ** Strings *)

Lemma chars_app (s1 s2 : string) :
  list_ascii_of_string (s1 +:+ s2) = list_ascii_of_string s1 ++ list_ascii_of_string s2.
Proof.
  induction s1 as [|a s1 IH]; [reflexivity|].
  change (a :: list_ascii_of_string (s1 +:+ s2)
          = a :: (list_ascii_of_string s1 ++ list_ascii_of_string s2)).
  rewrite IH. reflexivity.
Qed.

Lemma string_of_chars_snoc (l : list ascii) (a : ascii) (s : string) :
  string_of_list_ascii (l ++ [a]) +:+ s = string_of_list_ascii l +:+ String a s.
Proof.
  induction l as [|b l IH]; [reflexivity|].
  change (String b (string_of_list_ascii (l ++ [a]) +:+ s)
          = String b (string_of_list_ascii l +:+ String a s)).
  rewrite IH. reflexivity.
Qed.

(** The parser reads back what [escape] writes for an ASCII character. *)
Lemma parse_string_escape (a : ascii) (l acc : list ascii) :
  (N_of_ascii a <? 128)%N = true ->
  JSON.parse_string (list_ascii_of_string (JSON.escape a) ++ l) acc
  = JSON.parse_string l (a :: acc).
Proof.
  destruct a as [[] [] [] [] [] [] [] []]; intros H; try discriminate H; reflexivity.
Qed.

Lemma parse_string_quote_body (s : string) :
  forall (acc rest : list ascii),
    Fragment.ascii_only s = true ->
    JSON.parse_string
      (list_ascii_of_string (JSON.quote_body s) ++ JSON.dquote :: rest) acc
    = JSON.Parsed (string_of_list_ascii (rev acc) +:+ s) rest.
Proof.
  induction s as [|a s IH]; intros acc rest Hs.
  - cbn [JSON.quote_body list_ascii_of_string app JSON.parse_string].
    rewrite append_empty_r. reflexivity.
  - unfold Fragment.ascii_only in Hs. cbn [list_ascii_of_string forallb] in Hs.
    apply andb_true_iff in Hs as [Ha Hs].
    cbn [JSON.quote_body]. rewrite chars_app, <- app_assoc.
    rewrite (parse_string_escape a _ acc Ha).
    rewrite (IH (a :: acc) rest Hs). cbn [rev].
    rewrite string_of_chars_snoc. reflexivity.
Qed.

(** The text of a quoted string, and what the parser makes of it after the
    opening quote. *)
Lemma chars_quote (s : string) :
  list_ascii_of_string (JSON.quote s)
  = JSON.dquote :: list_ascii_of_string (JSON.quote_body s) ++ [JSON.dquote].
Proof. unfold JSON.quote. cbn [list_ascii_of_string]. rewrite chars_app. reflexivity. Qed.

(** ** Numbers *)

Lemma digits_of_uint (d : Decimal.uint) :
  forallb JSON.is_digit (list_ascii_of_string (NilEmpty.string_of_uint d)) = true.
Proof. induction d; cbn; try assumption; reflexivity. Qed.

Lemma take_digits_app (ds rest : list ascii) :
  forallb JSON.is_digit ds = true ->
  Fragment.ends_number rest = true ->
  JSON.take_digits (ds ++ rest) = (ds, rest).
Proof.
  intros Hds Hrest. induction ds as [|d ds IH].
  - destruct rest as [|a rest]; [reflexivity|].
    cbn [app JSON.take_digits]. cbn [Fragment.ends_number] in Hrest.
    destruct (JSON.is_digit a); [discriminate Hrest | reflexivity].
  - cbn [forallb] in Hds. apply andb_true_iff in Hds as [Hd Hds].
    cbn [app JSON.take_digits]. rewrite Hd, (IH Hds). reflexivity.
Qed.

Lemma to_uint_unorm (p : positive) : Decimal.unorm (Pos.to_uint p) = Pos.to_uint p.
Proof.
  rewrite <- (DecimalPos.Unsigned.to_of (Pos.to_uint p)).
  rewrite DecimalPos.Unsigned.of_to. reflexivity.
Qed.

Lemma to_uint_no_leading_zero (p : positive) (d : Decimal.uint) :
  Pos.to_uint p <> Decimal.D0 d.
Proof.
  intros E. pose proof (to_uint_unorm p) as Hn. rewrite E in Hn.
  rewrite DecimalFacts.unorm_D0 in Hn.
  unfold Decimal.unorm in Hn.
  destruct (Decimal.nzhead d) eqn:Hz;
    try (apply (DecimalFacts.nzhead_nonzero d d); congruence).
  injection Hn as <-.
  apply (DecimalPos.Unsigned.to_uint_nonzero p). exact E.
Qed.

Lemma digit_is_not_minus (a : ascii) :
  JSON.is_digit a = true -> Ascii.eqb a "-" = false.
Proof.
  destruct a as [[] [] [] [] [] [] [] []]; intros H; try discriminate H; reflexivity.
Qed.

(** The digits of a decimal numeral that is not empty and has no leading
    zero, unless it is zero itself, followed by text that ends a number. *)
Lemma parse_number_digits (negative : bool) (d : Decimal.uint) (rest : list ascii) :
  d <> Decimal.Nil ->
  (d = Decimal.zero \/ forall d', d <> Decimal.D0 d') ->
  Fragment.ends_number rest = true ->
  JSON.parse_number
    ((if negative then ["-"%char] else [])
     ++ list_ascii_of_string (NilEmpty.string_of_uint d) ++ rest)
  = (let n := Z.of_uint d in
     if negative && (n =? 0) then JSON.Unmodelled
     else if 2 ^ 53 <=? n then JSON.Unmodelled
     else JSON.Parsed (JSON.Number (if negative then - n else n)) rest).
Proof.
  intros Hnil Hlead Hrest.
  pose proof (digits_of_uint d) as Hdigits.
  assert (Hback : NilZero.uint_of_string
                    (string_of_list_ascii (list_ascii_of_string (NilEmpty.string_of_uint d)))
                  = Some d).
  { rewrite string_of_list_ascii_of_string.
    rewrite <- (NilZero.usu d Hnil). destruct d; try reflexivity. contradiction. }
  assert (Hzero : match list_ascii_of_string (NilEmpty.string_of_uint d) with
                  | [] => False
                  | d0 :: ds' => Ascii.eqb d0 "0" && negb (Nat.eqb (length ds') 0) = false
                  end).
  { destruct Hlead as [-> | Hlead]; [reflexivity|].
    destruct d; try reflexivity; [contradiction | exfalso; eapply Hlead; reflexivity]. }
  set (ds := list_ascii_of_string (NilEmpty.string_of_uint d)) in *.
  unfold JSON.parse_number.
  assert (Hsign : (let (negative0, l1) :=
                     match (if negative then ["-"%char] else []) ++ ds ++ rest with
                     | a :: l' => if Ascii.eqb a "-" then (true, l')
                                  else (false, (if negative then ["-"%char] else []) ++ ds ++ rest)
                     | [] => (false, (if negative then ["-"%char] else []) ++ ds ++ rest)
                     end in (negative0, l1)) = (negative, ds ++ rest)).
  { destruct negative; [reflexivity|]. cbn [app].
    destruct ds as [|d0 ds']; [contradiction|]. cbn [app].
    cbn [forallb] in Hdigits. apply andb_true_iff in Hdigits as [Hd0 _].
    rewrite (digit_is_not_minus d0 Hd0). reflexivity. }
  destruct (match (if negative then ["-"%char] else []) ++ ds ++ rest with
            | a :: l' => if Ascii.eqb a "-" then (true, l')
                         else (false, (if negative then ["-"%char] else []) ++ ds ++ rest)
            | [] => (false, (if negative then ["-"%char] else []) ++ ds ++ rest)
            end) as [negative0 l1].
  injection Hsign as -> ->.
  rewrite (take_digits_app ds rest Hdigits Hrest).
  destruct ds as [|d0 ds']; [contradiction|].
  rewrite Hzero, Hback. cbv zeta.
  destruct rest as [|a rest']; [reflexivity|].
  cbn [Fragment.ends_number] in Hrest. apply negb_true_iff in Hrest.
  apply orb_false_iff in Hrest as [Hrest HE].
  apply orb_false_iff in Hrest as [Hrest He].
  apply orb_false_iff in Hrest as [_ Hpoint].
  rewrite Hpoint, He, HE. reflexivity.
Qed.

(** [JSON.parse] reads back the text of an integer a double holds exactly. *)
Lemma parse_number_text (n : Z) (rest : list ascii) :
  - 2 ^ 53 < n < 2 ^ 53 ->
  Fragment.ends_number rest = true ->
  JSON.parse_number
    (list_ascii_of_string (NilZero.string_of_int (Z.to_int n)) ++ rest)
  = JSON.Parsed (JSON.Number n) rest.
Proof.
  intros Hn Hrest. destruct n as [|p|p]; cbn [Z.to_int NilZero.string_of_int].
  - apply (parse_number_digits false Decimal.zero rest);
      [discriminate | left; reflexivity | exact Hrest].
  - assert (Hp : NilZero.string_of_uint (Pos.to_uint p)
                 = NilEmpty.string_of_uint (Pos.to_uint p)).
    { pose proof (DecimalPos.Unsigned.to_uint_nonnil p).
      destruct (Pos.to_uint p); [contradiction | reflexivity ..]. }
    rewrite Hp.
    pose proof (parse_number_digits false (Pos.to_uint p) rest
                  (DecimalPos.Unsigned.to_uint_nonnil p)
                  (or_intror (to_uint_no_leading_zero p)) Hrest) as Hparse.
    cbn [app] in Hparse. rewrite Hparse.
    cbv zeta. unfold Z.of_uint. rewrite DecimalPos.Unsigned.of_to. cbn [Z.of_N andb].
    destruct (2 ^ 53 <=? Z.pos p) eqn:E; [apply Z.leb_le in E; lia | reflexivity].
  - assert (Hp : NilZero.string_of_uint (Pos.to_uint p)
                 = NilEmpty.string_of_uint (Pos.to_uint p)).
    { pose proof (DecimalPos.Unsigned.to_uint_nonnil p).
      destruct (Pos.to_uint p); [contradiction | reflexivity ..]. }
    rewrite Hp.
    pose proof (parse_number_digits true (Pos.to_uint p) rest
                  (DecimalPos.Unsigned.to_uint_nonnil p)
                  (or_intror (to_uint_no_leading_zero p)) Hrest) as Hparse.
    cbn [app] in Hparse.
    change (list_ascii_of_string (String "-" (NilEmpty.string_of_uint (Pos.to_uint p))) ++ rest)
      with ("-"%char :: list_ascii_of_string (NilEmpty.string_of_uint (Pos.to_uint p)) ++ rest).
    rewrite Hparse.
    cbv zeta. unfold Z.of_uint. rewrite DecimalPos.Unsigned.of_to. cbn [Z.of_N andb].
    change (Z.pos p =? 0) with false.
    destruct (2 ^ 53 <=? Z.pos p) eqn:E; [apply Z.leb_le in E; lia | reflexivity].
Qed.

(** ** Values *)

Lemma chars_commas (s : string) (l : list string) (rest : list ascii) :
  list_ascii_of_string (JSON.commas (s :: l)) ++ rest
  = list_ascii_of_string s
    ++ match l with
       | [] => rest
       | _ :: _ => ","%char :: list_ascii_of_string (JSON.commas l) ++ rest
       end.
Proof.
  destruct l as [|s' l]; [reflexivity|].
  change (JSON.commas (s :: s' :: l)) with (s +:+ "," +:+ JSON.commas (s' :: l)).
  rewrite !chars_app, <- !app_assoc. reflexivity.
Qed.

Lemma starts_value_plain (a : ascii) :
  starts_value a = true ->
  JSON.is_ws a = false /\ Ascii.eqb a "]" = false /\ Ascii.eqb a "}" = false.
Proof.
  destruct a as [[] [] [] [] [] [] [] []]; intros H; try discriminate H; repeat split.
Qed.

Lemma number_text_head (n : Z) :
  exists a tl,
    list_ascii_of_string (NilZero.string_of_int (Z.to_int n)) = a :: tl
    /\ (Ascii.eqb a "-" || JSON.is_digit a) = true.
Proof.
  assert (Hu : forall d, d <> Decimal.Nil ->
             exists a tl, list_ascii_of_string (NilZero.string_of_uint d) = a :: tl
                          /\ JSON.is_digit a = true).
  { intros d Hd. destruct d; try contradiction; eexists; eexists; split; reflexivity. }
  destruct n as [|p|p]; cbn [Z.to_int NilZero.string_of_int].
  - exists "0"%char, []. split; reflexivity.
  - destruct (Hu _ (DecimalPos.Unsigned.to_uint_nonnil p)) as (a & tl & E & Ha).
    exists a, tl. split; [exact E|]. rewrite Ha. apply orb_true_r.
  - eexists; eexists. split; reflexivity.
Qed.

Lemma value_text_head (v : JSON.value) :
  exists a tl, list_ascii_of_string (JSON.stringify v) = a :: tl /\ starts_value a = true.
Proof.
  destruct v as [|[]|n|s|items|members];
    try (eexists; eexists; split; reflexivity).
  destruct (number_text_head n) as (a & tl & E & Ha).
  exists a, tl. split; [exact E|].
  unfold starts_value. apply orb_true_iff in Ha as [Ha | Ha]; rewrite Ha;
    rewrite ?orb_true_r; reflexivity.
Qed.

(** How [parse_value] goes on after the first character of a value. *)
Lemma parse_value_number (fuel : nat) (a : ascii) (l : list ascii) :
  (Ascii.eqb a "-" || JSON.is_digit a) = true ->
  JSON.parse_value (S fuel) (a :: l) = JSON.parse_number (a :: l).
Proof.
  destruct a as [[] [] [] [] [] [] [] []]; intros H; try discriminate H; reflexivity.
Qed.

Lemma parse_value_string (fuel : nat) (l : list ascii) :
  JSON.parse_value (S fuel) (JSON.dquote :: l)
  = match JSON.parse_string l [] with
    | JSON.Parsed s rest => JSON.Parsed (JSON.Str s) rest
    | JSON.Failed => JSON.Failed
    | JSON.Unmodelled => JSON.Unmodelled
    end.
Proof. reflexivity. Qed.

Lemma parse_value_array (fuel : nat) (a : ascii) (l : list ascii) :
  starts_value a = true ->
  JSON.parse_value (S fuel) ("["%char :: a :: l) = JSON.parse_elements fuel (a :: l) [].
Proof.
  destruct a as [[] [] [] [] [] [] [] []]; intros H; try discriminate H; reflexivity.
Qed.

Lemma parse_value_object (fuel : nat) (l : list ascii) :
  JSON.parse_value (S fuel) ("{"%char :: JSON.dquote :: l)
  = JSON.parse_members fuel (JSON.dquote :: l) [].
Proof. reflexivity. Qed.

Lemma parse_elements_step (fuel : nat) (l : list ascii) (acc : list JSON.value) :
  JSON.parse_elements (S fuel) l acc
  = match JSON.parse_value fuel l with
    | JSON.Parsed v rest =>
        match JSON.skip_ws rest with
        | b :: rest' =>
            if Ascii.eqb b "," then JSON.parse_elements fuel rest' (v :: acc)
            else if Ascii.eqb b "]" then JSON.Parsed (JSON.Arr (rev (v :: acc))) rest'
            else JSON.Failed
        | [] => JSON.Failed
        end
    | JSON.Failed => JSON.Failed
    | JSON.Unmodelled => JSON.Unmodelled
    end.
Proof. reflexivity. Qed.

Lemma parse_members_step (fuel : nat) (l : list ascii) (acc : list (string * JSON.value)) :
  JSON.parse_members (S fuel) (JSON.dquote :: l) acc
  = match JSON.parse_string l [] with
    | JSON.Parsed key l2 =>
        match JSON.skip_ws l2 with
        | c :: l3 =>
            if Ascii.eqb c ":" then
              match JSON.parse_value fuel l3 with
              | JSON.Parsed v rest =>
                  if JSON.displaced key acc then JSON.Unmodelled
                  else
                    match JSON.skip_ws rest with
                    | b :: rest' =>
                        if Ascii.eqb b "," then JSON.parse_members fuel rest' ((key, v) :: acc)
                        else if Ascii.eqb b "}"
                             then JSON.Parsed (JSON.Obj (rev ((key, v) :: acc))) rest'
                             else JSON.Failed
                    | [] => JSON.Failed
                    end
              | JSON.Failed => JSON.Failed
              | JSON.Unmodelled => JSON.Unmodelled
              end
            else JSON.Failed
        | [] => JSON.Failed
        end
    | JSON.Failed => JSON.Failed
    | JSON.Unmodelled => JSON.Unmodelled
    end.
Proof. reflexivity. Qed.

Lemma size_positive (v : JSON.value) : (1 <= Fragment.size v)%nat.
Proof. destruct v; cbn; lia. Qed.

Lemma list_sum_cons (a : nat) (l : list nat) : list_sum (a :: l) = (a + list_sum l)%nat.
Proof. reflexivity. Qed.

Lemma parse_elements_text (bound : nat) :
  reads_back bound ->
  forall (items : list JSON.value) (acc : list JSON.value) (rest : list ascii) (fuel : nat),
    items <> [] ->
    forallb Fragment.covers items = true ->
    (list_sum (map (fun x => S (Fragment.size x)) items) <= fuel)%nat ->
    (fuel <= S bound)%nat ->
    JSON.parse_elements fuel
      (list_ascii_of_string (JSON.commas (map JSON.stringify items)) ++ "]"%char :: rest) acc
    = JSON.Parsed (JSON.Arr (rev acc ++ items)) rest.
Proof.
  intros Hread. induction items as [|x xs IH]; intros acc rest fuel Hne Hcov Hsize Hfuel;
    [contradiction|].
  cbn [forallb] in Hcov. apply andb_true_iff in Hcov as [Hx Hxs].
  cbn [map] in Hsize. rewrite list_sum_cons in Hsize.
  destruct fuel as [|fuel]; [lia|].
  rewrite parse_elements_step. cbn [map]. rewrite chars_commas.
  destruct xs as [|y ys].
  - cbn [map]. rewrite (Hread fuel x ("]"%char :: rest) ltac:(lia) Hx ltac:(lia) eq_refl).
    cbn [rev]. reflexivity.
  - cbn [map]. rewrite (Hread fuel x (","%char :: _) ltac:(lia) Hx ltac:(lia) eq_refl).
    change (JSON.skip_ws (","%char :: ?l)) with (","%char :: l).
    change (Ascii.eqb "," ",") with true. cbv iota.
    pose proof (IH (x :: acc) rest fuel ltac:(discriminate) Hxs ltac:(lia) ltac:(lia)) as Hrec.
    cbn [map] in Hrec. rewrite Hrec.
    cbn [rev]. rewrite <- app_assoc. reflexivity.
Qed.

Lemma chars_member (k : string) (v : JSON.value) (rest : list ascii) :
  list_ascii_of_string (JSON.quote k +:+ ":" +:+ JSON.stringify v) ++ rest
  = JSON.dquote :: list_ascii_of_string (JSON.quote_body k)
    ++ JSON.dquote :: ":"%char :: list_ascii_of_string (JSON.stringify v) ++ rest.
Proof.
  rewrite !chars_app, chars_quote. cbn [app list_ascii_of_string].
  rewrite <- !app_assoc. reflexivity.
Qed.

Lemma not_displaced (k : string) (acc : list (string * JSON.value)) :
  Fragment.plain_key k = true ->
  existsb (fun m => String.eqb (fst m) k) acc = false ->
  JSON.displaced k acc = false.
Proof.
  intros Hk Hacc. unfold JSON.displaced. rewrite Hacc, orb_false_r.
  unfold Fragment.plain_key in Hk. apply andb_true_iff in Hk as [_ Hk].
  destruct k; [reflexivity|]. apply negb_true_iff. exact Hk.
Qed.

Lemma parse_members_text (bound : nat) :
  reads_back bound ->
  forall (members acc : list (string * JSON.value)) (rest : list ascii) (fuel : nat),
    members <> [] ->
    forallb Fragment.plain_key (map fst members) = true ->
    Fragment.distinct (map fst members) = true ->
    (forall k, k ∈ map fst members ->
               existsb (fun m => String.eqb (fst m) k) acc = false) ->
    forallb (fun m => Fragment.covers (snd m)) members = true ->
    (list_sum (map (fun m => S (Fragment.size (snd m))) members) <= fuel)%nat ->
    (fuel <= S bound)%nat ->
    JSON.parse_members fuel
      (list_ascii_of_string
         (JSON.commas (map (fun m => JSON.quote (fst m) +:+ ":" +:+ JSON.stringify (snd m))
                         members))
       ++ "}"%char :: rest) acc
    = JSON.Parsed (JSON.Obj (rev acc ++ members)) rest.
Proof.
  intros Hread. induction members as [|[k v] ms IH];
    intros acc rest fuel Hne Hkeys Hdist Hfresh Hcov Hsize Hfuel; [contradiction|].
  cbn [map fst forallb] in Hkeys. apply andb_true_iff in Hkeys as [Hk Hkeys].
  cbn [map fst Fragment.distinct] in Hdist. apply andb_true_iff in Hdist as [Hnew Hdist].
  apply negb_true_iff in Hnew.
  cbn [forallb snd] in Hcov. apply andb_true_iff in Hcov as [Hv Hcov].
  cbn [map snd] in Hsize. rewrite list_sum_cons in Hsize.
  destruct fuel as [|fuel]; [lia|].
  assert (Hascii : Fragment.ascii_only k = true)
    by (unfold Fragment.plain_key in Hk; apply andb_true_iff in Hk as [Hk _]; exact Hk).
  assert (Hplace : JSON.displaced k acc = false).
  { apply not_displaced; [exact Hk|]. apply Hfresh. cbn [map fst]. apply elem_of_cons. auto. }
  cbn [map fst snd]. rewrite chars_commas, chars_member.
  rewrite parse_members_step, (parse_string_quote_body k [] _ Hascii).
  change (string_of_list_ascii (rev []) +:+ k) with k.
  change (JSON.skip_ws (":"%char :: ?l)) with (":"%char :: l).
  change (Ascii.eqb ":" ":") with true. cbv iota.
  destruct ms as [|m ms'].
  - cbn [map].
    rewrite (Hread fuel v ("}"%char :: rest) ltac:(lia) Hv ltac:(lia) eq_refl).
    rewrite Hplace. cbn [rev]. reflexivity.
  - cbn [map].
    rewrite (Hread fuel v (","%char :: _) ltac:(lia) Hv ltac:(lia) eq_refl).
    rewrite Hplace.
    change (JSON.skip_ws (","%char :: ?l)) with (","%char :: l).
    change (Ascii.eqb "," ",") with true. cbv iota.
    assert (Hfresh' : forall k', k' ∈ map fst (m :: ms') ->
              existsb (fun m0 => String.eqb (fst m0) k') ((k, v) :: acc) = false).
    { intros k' Hk'. cbn [existsb fst]. apply orb_false_iff. split.
      - destruct (String.eqb_spec k k') as [<-|]; [|reflexivity].
        apply list_elem_of_In in Hk'.
        assert (existsb (String.eqb k) (map fst (m :: ms')) = true) as E.
        { apply existsb_exists. exists k. split; [exact Hk' | apply String.eqb_refl]. }
        congruence.
      - apply Hfresh. cbn [map fst]. apply elem_of_cons. right. exact Hk'. }
    pose proof (IH ((k, v) :: acc) rest fuel ltac:(discriminate) Hkeys Hdist Hfresh' Hcov
                  ltac:(lia) ltac:(lia)) as Hrec.
    cbn [map] in Hrec. rewrite Hrec.
    cbn [rev]. rewrite <- app_assoc. reflexivity.
Qed.

Lemma chars_array (items : list JSON.value) (rest : list ascii) :
  list_ascii_of_string (JSON.stringify (JSON.Arr items)) ++ rest
  = "["%char :: list_ascii_of_string (JSON.commas (map JSON.stringify items))
    ++ "]"%char :: rest.
Proof.
  change (JSON.stringify (JSON.Arr items))
    with ("[" +:+ JSON.commas (map JSON.stringify items) +:+ "]").
  rewrite !chars_app, <- !app_assoc. reflexivity.
Qed.

Lemma chars_object (members : list (string * JSON.value)) (rest : list ascii) :
  list_ascii_of_string (JSON.stringify (JSON.Obj members)) ++ rest
  = "{"%char
    :: list_ascii_of_string
         (JSON.commas (map (fun m => JSON.quote (fst m) +:+ ":" +:+ JSON.stringify (snd m))
                         members))
    ++ "}"%char :: rest.
Proof.
  change (JSON.stringify (JSON.Obj members))
    with ("{" +:+ JSON.commas (map (fun m => JSON.quote (fst m) +:+ ":" +:+ JSON.stringify (snd m))
                                 members) +:+ "}").
  rewrite !chars_app, <- !app_assoc. reflexivity.
Qed.

(** With enough fuel, [parse_value] reads back the text of every value of
    the fragment and stops where the text of the value ends. *)
Lemma parse_value_text (bound : nat) : reads_back bound.
Proof.
  induction bound as [|bound IH]; intros fuel v rest Hle Hcov Hsize Hrest.
  - pose proof (size_positive v). lia.
  - destruct (Nat.eq_dec fuel (S bound)) as [->|Hne];
      [|apply IH; [lia | assumption ..]].
    destruct v as [|b|n|s|items|members].
    + reflexivity.
    + destruct b; reflexivity.
    + cbn [Fragment.covers] in Hcov. apply andb_true_iff in Hcov as [Hlo Hhi].
      apply Z.ltb_lt in Hlo, Hhi.
      rewrite <- (parse_number_text n rest (conj Hlo Hhi) Hrest).
      cbn [JSON.stringify].
      destruct (number_text_head n) as (a & tl & E & Ha). rewrite E. cbn [app].
      apply parse_value_number, Ha.
    + cbn [Fragment.covers] in Hcov. cbn [JSON.stringify].
      rewrite chars_quote. cbn [app]. rewrite <- app_assoc. cbn [app].
      rewrite parse_value_string, (parse_string_quote_body s [] rest Hcov).
      reflexivity.
    + cbn [Fragment.covers] in Hcov. cbn [Fragment.size] in Hsize.
      destruct items as [|x xs]; [reflexivity|].
      rewrite chars_array.
      pose proof (parse_elements_text bound IH (x :: xs) [] rest bound
                    ltac:(discriminate) Hcov ltac:(lia) ltac:(lia)) as Hloop.
      cbn [rev app] in Hloop. rewrite <- Hloop.
      cbn [map]. rewrite chars_commas.
      destruct (value_text_head x) as (a & tl & E & Ha). rewrite E. cbn [app].
      apply parse_value_array, Ha.
    + cbn [Fragment.covers] in Hcov. cbn [Fragment.size] in Hsize.
      apply andb_true_iff in Hcov as [Hcov Hvalues].
      apply andb_true_iff in Hcov as [Hkeys Hdist].
      destruct members as [|[k v] ms]; [reflexivity|].
      rewrite chars_object.
      pose proof (parse_members_text bound IH ((k, v) :: ms) [] rest bound
                    ltac:(discriminate) Hkeys Hdist ltac:(reflexivity) Hvalues
                    ltac:(lia) ltac:(lia)) as Hloop.
      cbn [rev app] in Hloop. rewrite <- Hloop.
      cbn [map fst snd]. rewrite chars_commas, chars_member.
      apply parse_value_object.
Qed.

(** ** The fuel of [JSON.parse] is enough *)

Lemma size_within_text (n : nat) :
  forall v : JSON.value,
    (Fragment.size v <= n)%nat ->
    (Fragment.size v <= length (list_ascii_of_string (JSON.stringify v)))%nat.
Proof.
  induction n as [|n IH]; intros v Hn; [pose proof (size_positive v); lia|].
  assert (Hhead : (1 <= length (list_ascii_of_string (JSON.stringify v)))%nat).
  { destruct (value_text_head v) as (a & tl & E & _). rewrite E. cbn. lia. }
  destruct v as [|b|z|s|items|members]; try exact Hhead.
  - cbn [Fragment.size] in Hn |- *.
    pose proof (chars_array items []) as E. rewrite app_nil_r in E. rewrite E.
    cbn [length]. rewrite length_app. cbn [length].
    assert (Hsum : (list_sum (map (fun x => S (Fragment.size x)) items)
                    <= S (length (list_ascii_of_string
                                    (JSON.commas (map JSON.stringify items)))))%nat).
    { assert (Hle : (list_sum (map (fun x => S (Fragment.size x)) items) <= n)%nat) by lia.
      clear E Hn Hhead. induction items as [|x xs IHxs]; [cbn; lia|].
      cbn [map] in Hle |- *. rewrite list_sum_cons in Hle |- *.
      pose proof (chars_commas (JSON.stringify x) (map JSON.stringify xs) []) as E.
      rewrite !app_nil_r in E. rewrite E, length_app.
      pose proof (IH x ltac:(lia)) as Hx.
      specialize (IHxs ltac:(lia)).
      destruct xs as [|y ys]; [cbn in *; lia|].
      cbn [map length] in *. lia. }
    lia.
  - cbn [Fragment.size] in Hn |- *.
    pose proof (chars_object members []) as E. rewrite app_nil_r in E. rewrite E.
    cbn [length]. rewrite length_app. cbn [length].
    assert (Hsum : (list_sum (map (fun m => S (Fragment.size (snd m))) members)
                    <= S (length (list_ascii_of_string
                                    (JSON.commas
                                       (map (fun m => JSON.quote (fst m) +:+ ":"
                                                      +:+ JSON.stringify (snd m))
                                          members)))))%nat).
    { assert (Hle : (list_sum (map (fun m => S (Fragment.size (snd m))) members) <= n)%nat)
        by lia.
      clear E Hn Hhead. induction members as [|[k v] ms IHms]; [cbn; lia|].
      cbn [map fst snd] in Hle |- *. rewrite list_sum_cons in Hle |- *.
      pose proof (chars_commas (JSON.quote k +:+ ":" +:+ JSON.stringify v)
                    (map (fun m => JSON.quote (fst m) +:+ ":" +:+ JSON.stringify (snd m)) ms)
                    []) as E.
      rewrite !app_nil_r in E. rewrite E, length_app.
      pose proof (chars_member k v []) as Em. rewrite !app_nil_r in Em. rewrite Em.
      cbn [length]. rewrite length_app. cbn [length].
      pose proof (IH v ltac:(lia)) as Hv.
      specialize (IHms ltac:(lia)).
      destruct ms as [|m ms']; [cbn in *; lia|].
      cbn [map length] in *. lia. }
    lia.
Qed.

(** [JSON.parse] reads back what [JSON.stringify] writes, for every value
    of the fragment. *)
Lemma parse_stringify (v : JSON.value) :
  Fragment.covers v = true -> JSON.parse (JSON.stringify v) = Some (Normal v).
Proof.
  intros Hcov. unfold JSON.parse.
  set (l := list_ascii_of_string (JSON.stringify v)).
  pose proof (size_within_text _ v (Nat.le_refl _)) as Hsize. fold l in Hsize.
  pose proof (parse_value_text (2 * length l + 2)%nat (2 * length l + 2)%nat v []
                (Nat.le_refl _) Hcov ltac:(lia) eq_refl) as Hparse.
  fold l in Hparse. rewrite app_nil_r in Hparse. rewrite Hparse. reflexivity.
Qed.

(** ** getJSON and fromJSON *)

(** X10: for every object and every array of the fragment, [fromJSON] applied to
    the text [getJSON] makes of it returns the same structure, every field
    as it was, with the given prototype set on it; on an object, every
    method of the prototype that no field of the object hides is callable
    and runs on the fields. *)
Theorem fromJSON_reads_back_getJSON (proto : Prototype) (v : JSON.value) :
  Fragment.covers v = true ->
  is_structure v = true ->
  fromJSON proto (getJSON v) = Some (Normal {| data := v; prototypeOf := Some proto |})
  /\ (forall (members : list (string * JSON.value)) (name : string) (m : Method),
        v = JSON.Obj members ->
        assoc name members = None ->
        assoc name proto = Some m ->
        call_method {| data := v; prototypeOf := Some proto |} name = Some (m members)).
Proof.
  intros Hcov Hstruct. split.
  - unfold fromJSON, getJSON. rewrite (parse_stringify v Hcov).
    destruct v; try discriminate Hstruct; reflexivity.
  - intros members name m -> Hown Hm. unfold call_method. cbn [data prototypeOf].
    rewrite Hown, Hm. reflexivity.
Qed.

Lemma fromJSON_reads_back_getJSON_witness :
  fromJSON Rectangle_prototype
    (getJSON (JSON.Obj [("name", JSON.Str "a/b"); ("sizes", JSON.Arr [JSON.Number (-3); JSON.Null])]))
  = Some (Normal {| data := JSON.Obj [("name", JSON.Str "a/b");
                                      ("sizes", JSON.Arr [JSON.Number (-3); JSON.Null])];
                    prototypeOf := Some Rectangle_prototype |}).
Proof.
  apply (fromJSON_reads_back_getJSON Rectangle_prototype
           (JSON.Obj [("name", JSON.Str "a/b");
                      ("sizes", JSON.Arr [JSON.Number (-3); JSON.Null])]));
    reflexivity.
Defined.

(** X11: what does not come back as an object: the text of [null] parses, but
    [fromJSON] then throws the TypeError of [Object.setPrototypeOf]; a
    number, a string or a boolean of the fragment comes back as itself with
    no prototype set on it. *)
Theorem fromJSON_of_null_and_primitives (proto : Prototype) (v : JSON.value) :
  Fragment.covers v = true ->
  is_structure v = false ->
  (v = JSON.Null ->
   fromJSON proto (getJSON v) = Some (Throw TypeError_setPrototypeOf))
  /\ (v <> JSON.Null ->
      fromJSON proto (getJSON v) = Some (Normal {| data := v; prototypeOf := None |})).
Proof.
  intros Hcov Hstruct. unfold fromJSON, getJSON. rewrite (parse_stringify v Hcov).
  destruct v; try discriminate Hstruct; split; intros H;
    try discriminate H; try contradiction; reflexivity.
Qed.

Lemma fromJSON_of_null_and_primitives_witness :
  fromJSON Rectangle_prototype (getJSON JSON.Null) = Some (Throw TypeError_setPrototypeOf)
  /\ fromJSON Rectangle_prototype (getJSON (JSON.Number 42))
     = Some (Normal {| data := JSON.Number 42; prototypeOf := None |}).
Proof.
  split.
  - apply (fromJSON_of_null_and_primitives Rectangle_prototype JSON.Null); reflexivity.
  - apply (fromJSON_of_null_and_primitives Rectangle_prototype (JSON.Number 42));
      [reflexivity | reflexivity | discriminate].
Defined.

(** X12: [getJSON] loses nothing on the fragment: two values with the same text
    are the same value. *)
Theorem getJSON_is_injective (v1 v2 : JSON.value) :
  Fragment.covers v1 = true -> Fragment.covers v2 = true ->
  getJSON v1 = getJSON v2 -> v1 = v2.
Proof.
  intros H1 H2 E. unfold getJSON in E.
  pose proof (parse_stringify v1 H1) as P1.
  pose proof (parse_stringify v2 H2) as P2.
  rewrite E in P1. congruence.
Qed.

Lemma getJSON_is_injective_witness :
  getJSON (JSON.Arr [JSON.Number 1; JSON.Str "1"])
  = getJSON (JSON.Arr [JSON.Number 1; JSON.Str "1"])
  /\ (getJSON (JSON.Number 1) = getJSON (JSON.Str "1") -> False).
Proof.
  split; [reflexivity|].
  intros E.
  pose proof (getJSON_is_injective (JSON.Number 1) (JSON.Str "1") eq_refl eq_refl E) as H.
  discriminate H.
Defined.

(** * combine on one of its own operands *)

Lemma combine_on_left_run (h : list SelectorBuilderClass.t)
    (this right : SelectorBuilderClass.ref) (c : string) (bt br : SelectorBuilderClass.t) :
  h !! this = Some bt -> h !! right = Some br -> this <> right ->
  SelectorBuilderClass.combine this this c right h =
  (Normal this,
   <[this := SelectorBuilderClass.set_combineSelectors
               [Some (padded c); rendered br] (cleared bt)]>
     (<[right := cleared br]> h)).
Proof.
  intros Hthis Hright Hne.
  pose proof (lookup_lt_Some _ _ _ Hthis) as Lthis.
  unfold SelectorBuilderClass.combine, SelectorBuilderClass.push_stringified, bind.
  rewrite (invoke_run _ _ _ _ Hthis). cbn [fst snd get].
  rewrite (list_insert_id _ _ _ Hthis).
  rewrite (invoke_run _ _ _ _ Hthis), stringify_rendered. cbn [fst snd].
  destruct (decide (this = this)) as [_|E]; [|contradiction]. cbn [ret].
  assert (H1 : <[this := cleared bt]> h !! this = Some (cleared bt))
    by (apply list_lookup_insert_eq; exact Lthis).
  rewrite (invoke_run _ _ _ _ H1). cbn [fst snd]. rewrite list_insert_insert_eq.
  set (bt1 := snd (SelectorBuilderClass.push_combineSelectors (Some (" " +:+ c +:+ " "))
                     (cleared bt))).
  assert (H2 : <[this := bt1]> h !! this = Some bt1)
    by (apply list_lookup_insert_eq; exact Lthis).
  rewrite (invoke_run _ _ _ _ H2). cbn [fst snd get]. rewrite list_insert_insert_eq.
  assert (H2r : <[this := bt1]> h !! right = Some br)
    by (rewrite list_lookup_insert_ne by congruence; exact Hright).
  rewrite (invoke_run _ _ _ _ H2r), stringify_rendered. cbn [fst snd].
  destruct (decide (right = this)) as [E|_]; [congruence|].
  assert (H3 : <[right := cleared br]> (<[this := bt1]> h) !! this = Some bt1)
    by (rewrite list_lookup_insert_ne by congruence; exact H2).
  rewrite (invoke_run _ _ _ _ H3). cbn [fst snd ret]. f_equal.
  rewrite (list_insert_insert_ne _ right this) by congruence.
  rewrite list_insert_insert_eq. reflexivity.
Qed.

Lemma combine_on_right_run (h : list SelectorBuilderClass.t)
    (this left : SelectorBuilderClass.ref) (c : string) (bt bl : SelectorBuilderClass.t) :
  h !! this = Some bt -> h !! left = Some bl -> this <> left ->
  SelectorBuilderClass.combine this left c this h =
  (Normal this, <[this := cleared bt]> (<[left := cleared bl]> h)).
Proof.
  intros Hthis Hleft Hne.
  pose proof (lookup_lt_Some _ _ _ Hthis) as Lthis.
  unfold SelectorBuilderClass.combine, SelectorBuilderClass.push_stringified, bind.
  rewrite (invoke_run _ _ _ _ Hthis). cbn [fst snd get].
  rewrite (list_insert_id _ _ _ Hthis).
  rewrite (invoke_run _ _ _ _ Hleft), stringify_rendered. cbn [fst snd].
  destruct (decide (left = this)) as [E|_]; [congruence|].
  set (h1 := <[left := cleared bl]> h).
  assert (H1 : h1 !! this = Some bt)
    by (subst h1; rewrite list_lookup_insert_ne by congruence; exact Hthis).
  assert (L1 : (this < length h1)%nat) by (apply lookup_lt_Some in H1; exact H1).
  rewrite (invoke_run _ _ _ _ H1). cbn [fst snd].
  set (bt1 := snd (SelectorBuilderClass.push_combineSelectors (rendered bl) bt)).
  assert (H2 : <[this := bt1]> h1 !! this = Some bt1)
    by (apply list_lookup_insert_eq; exact L1).
  rewrite (invoke_run _ _ _ _ H2). cbn [fst snd]. rewrite list_insert_insert_eq.
  set (bt2 := snd (SelectorBuilderClass.push_combineSelectors (Some (" " +:+ c +:+ " ")) bt1)).
  assert (H3 : <[this := bt2]> h1 !! this = Some bt2)
    by (apply list_lookup_insert_eq; exact L1).
  rewrite (invoke_run _ _ _ _ H3). cbn [fst snd get]. rewrite list_insert_insert_eq.
  rewrite (invoke_run _ _ _ _ H3), stringify_rendered. cbn [fst snd].
  destruct (decide (this = this)) as [_|E]; [|contradiction]. cbn [ret fst snd].
  rewrite list_insert_insert_eq. reflexivity.
Qed.

Lemma combine_on_both_run (h : list SelectorBuilderClass.t)
    (this : SelectorBuilderClass.ref) (c : string) (bt : SelectorBuilderClass.t) :
  h !! this = Some bt ->
  SelectorBuilderClass.combine this this c this h
  = (Normal this, <[this := cleared bt]> h).
Proof.
  intros Hthis.
  pose proof (lookup_lt_Some _ _ _ Hthis) as Lthis.
  unfold SelectorBuilderClass.combine, SelectorBuilderClass.push_stringified, bind.
  rewrite (invoke_run _ _ _ _ Hthis). cbn [fst snd get].
  rewrite (list_insert_id _ _ _ Hthis).
  rewrite (invoke_run _ _ _ _ Hthis), stringify_rendered. cbn [fst snd].
  destruct (decide (this = this)) as [_|E]; [|contradiction]. cbn [ret].
  assert (H1 : <[this := cleared bt]> h !! this = Some (cleared bt))
    by (apply list_lookup_insert_eq; exact Lthis).
  rewrite (invoke_run _ _ _ _ H1). cbn [fst snd]. rewrite list_insert_insert_eq.
  set (bt1 := snd (SelectorBuilderClass.push_combineSelectors (Some (" " +:+ c +:+ " "))
                     (cleared bt))).
  assert (H2 : <[this := bt1]> h !! this = Some bt1)
    by (apply list_lookup_insert_eq; exact Lthis).
  rewrite (invoke_run _ _ _ _ H2). cbn [fst snd get]. rewrite list_insert_insert_eq.
  rewrite (invoke_run _ _ _ _ H2), stringify_rendered. cbn [fst snd ret].
  rewrite list_insert_insert_eq. reflexivity.
Qed.

(** X13: the method [combine] called on a builder that is also one of its
    operands returns normally but loses text.  As its own left operand the
    receiver renders to the combinator between two spaces followed by the
    right operand, without the text it had; as its own right operand, or as
    both operands, it is left with both sequences empty and renders to
    [null], and the other operand is consumed all the same. *)
Theorem combine_on_its_own_operand
    (h : list SelectorBuilderClass.t) (this other : SelectorBuilderClass.ref)
    (c : string) (bt bo : SelectorBuilderClass.t) :
  h !! this = Some bt -> h !! other = Some bo -> this <> other ->
  (fst (SelectorBuilderClass.combine this this c other h) = Normal this
   /\ fst (SelectorBuilderClass.invoke this SelectorBuilderClass.stringify
             (snd (SelectorBuilderClass.combine this this c other h)))
      = Normal (Some (" " +:+ c +:+ " " +:+ text (rendered bo)))
   /\ consumed other (snd (SelectorBuilderClass.combine this this c other h)))
  /\ (fst (SelectorBuilderClass.combine this other c this h) = Normal this
      /\ consumed this (snd (SelectorBuilderClass.combine this other c this h))
      /\ consumed other (snd (SelectorBuilderClass.combine this other c this h)))
  /\ (fst (SelectorBuilderClass.combine this this c this h) = Normal this
      /\ consumed this (snd (SelectorBuilderClass.combine this this c this h))).
Proof.
  intros Hthis Hother Hne.
  pose proof (lookup_lt_Some _ _ _ Hthis) as Lthis.
  pose proof (lookup_lt_Some _ _ _ Hother) as Lother.
  split; [|split].
  - rewrite (combine_on_left_run h this other c bt bo Hthis Hother Hne). cbn [fst snd].
    split; [reflexivity|]. split.
    + erewrite invoke_run
        by (apply list_lookup_insert_eq; rewrite length_insert; exact Lthis).
      rewrite stringify_run. cbn [fst]. do 2 f_equal.
      cbn -[String.append]. unfold Array.join, padded, text. cbn [fold_right].
      rewrite append_empty_r, !append_assoc. reflexivity.
    + apply (consumed_cleared _ _ bo).
      rewrite list_lookup_insert_ne by congruence.
      apply list_lookup_insert_eq. exact Lother.
  - rewrite (combine_on_right_run h this other c bt bo Hthis Hother Hne). cbn [fst snd].
    split; [reflexivity|]. split.
    + apply (consumed_cleared _ _ bt).
      apply list_lookup_insert_eq. rewrite length_insert. exact Lthis.
    + apply (consumed_cleared _ _ bo).
      rewrite list_lookup_insert_ne by congruence.
      apply list_lookup_insert_eq. exact Lother.
  - rewrite (combine_on_both_run h this c bt Hthis). cbn [fst snd].
    split; [reflexivity|].
    apply (consumed_cleared _ _ bt). apply list_lookup_insert_eq. exact Lthis.
Qed.

Lemma combine_on_its_own_operand_witness :
  fst (SelectorBuilderClass.invoke 0%nat SelectorBuilderClass.stringify
         (snd (SelectorBuilderClass.combine 0%nat 0%nat "+" 1%nat div_and_table)))
  = Normal (Some " + table").
Proof.
  destruct (combine_on_its_own_operand div_and_table 0%nat 1%nat "+"
              (SelectorBuilderClass.mk [{| type := "element"; value := "div" |}] []
                 (Flags.mk true false false) enumeration)
              (SelectorBuilderClass.mk [{| type := "element"; value := "table" |}] []
                 (Flags.mk true false false) enumeration)
              eq_refl eq_refl ltac:(lia)) as ((_ & H & _) & _).
  exact H.
Defined.
